(** * ServiceNow-style ITSM client: SLA dashboard, workload table, password reset

    A shallow embedding of the derived-data logic of the React components
    [SLADashboard] (frontend/src/components/SLADashboard.js),
    [AssignmentGroups] and [PasswordResetForm], together with the SLA
    evaluation and aggregation service that the dashboards call over HTTP.

    Conventions.
    - A JSON numeric field is a number, [null], or absent ([undefined]).
      Minute counts and identifiers are integers ([Z]); workload figures are
      ratios and are kept as exact rationals ([Q]), with [NaN] added where the
      source can produce it.
    - Strings are ASCII strings; [toLowerCase] and [trim] are the ASCII
      fragments of the JavaScript methods.
    - The component state holds the contents of its arrays; [filterData] is
      also given on a store of arrays, where "returns the same array" and
      "leaves the array unchanged" can be told apart. *)

From Stdlib Require Import ZArith QArith Qminmax Bool Ascii String DecimalString Lia.
From Stdlib Require DecimalPos DecimalZ.
From stdpp Require Import base gmap list strings sorting.

Local Open Scope Z_scope.

(** ** JavaScript primitives used by the components *)
Module JS.

(** [Number.prototype.toString] on an integer. *)
Definition numberToString (n : Z) : string :=
  NilZero.string_of_int (Z.to_int n).

(** A string is truthy unless it is empty. *)
Definition truthyString (s : string) : bool := negb (String.eqb s "").

Definition lowerAscii (c : ascii) : ascii :=
  let n := nat_of_ascii c in
  if ((65 <=? n)%nat && (n <=? 90)%nat)%bool then ascii_of_nat (n + 32) else c.

(** [String.prototype.toLowerCase] on text of the ASCII range, where it
    works character by character; characters outside that range are left as
    they are (JavaScript applies the Unicode mappings there, some of which
    depend on the neighbouring characters). *)
Fixpoint toLowerCase (s : string) : string :=
  match s with
  | EmptyString => EmptyString
  | String c r => String (lowerAscii c) (toLowerCase r)
  end.

(** [s.includes(sub)]: [sub] occurs at some position of [s]. *)
Fixpoint includes (s sub : string) : bool :=
  (String.prefix sub s ||
   match s with
   | EmptyString => false
   | String _ r => includes r sub
   end)%bool.

Definition isSpace (c : ascii) : bool :=
  let n := nat_of_ascii c in
  ((n =? 32)%nat || ((9 <=? n)%nat && (n <=? 13)%nat))%bool.

Fixpoint trimStart (s : string) : string :=
  match s with
  | EmptyString => EmptyString
  | String c r => if isSpace c then trimStart r else s
  end.

Fixpoint trimEnd (s : string) : string :=
  match s with
  | EmptyString => EmptyString
  | String c r =>
      match trimEnd r with
      | EmptyString => if isSpace c then EmptyString else String c EmptyString
      | r' => String c r'
      end
  end.

Definition trim (s : string) : string := trimEnd (trimStart s).

(** A JSON field holding a string or a number (ticket numbers and ids). *)
Inductive value :=
| VUndefined
| VNull
| VNum (n : Z)
| VStr (s : string).

Definition truthy (v : value) : bool :=
  match v with
  | VUndefined | VNull => false
  | VNum n => negb (n =? 0)
  | VStr s => truthyString s
  end.

(** [a || b] *)
Definition or (a b : value) : value := if truthy a then a else b.

(** [v.toString()]; the callers guard with [|| ''], so the receiver is
    never [undefined] or [null] (where the method call would throw). *)
Definition toString (v : value) : string :=
  match v with
  | VNum n => numberToString n
  | VStr s => s
  | VUndefined | VNull => ""
  end.

(** A JSON numeric field. *)
Inductive numfield :=
| NUndefined
| NNull
| NNum (n : Z).

Definition truthyNum (v : numfield) : bool :=
  match v with
  | NNum n => negb (n =? 0)
  | _ => false
  end.

Definition orNum (a b : numfield) : numfield := if truthyNum a then a else b.

(** [a || b] on optional strings ([None] is an absent or null field). *)
Definition orStr (a : option string) (b : string) : string :=
  match a with
  | Some s => if truthyString s then s else b
  | None => b
  end.

Fixpoint lastChar (s : string) : option ascii :=
  match s with
  | EmptyString => None
  | String c r => match lastChar r with Some d => Some d | None => Some c end
  end.

End JS.

(** ** SLADashboard.js *)
Module SLADashboard.
Import JS.

(** One row of the breach or warning listing, with the alternative field
    names the component tolerates. *)
Record Entry := {
  ticket_id : value;
  id : value;
  ticket_number : value;
  title : option string;
  short_description : option string;
  priority : option string;
  overdue_minutes : numfield;
  time_remaining_minutes : numfield;
  minutes_remaining : numfield;
}.

(** Body of a listing response: a bare array, or an object whose
    [breaches] / [warnings] member may be missing. *)
Inductive Body :=
| BArray (items : list Entry)
| BObject (breachesField warningsField : option (list Entry)).

Record Response := { ok : bool; json : Body }.

Record State := {
  breaches : list Entry;
  warnings : list Entry;
  loading : bool;
  error : option string;
  searchTerm : string;
}.

(** [useState] initial values. *)
Definition initialState : State :=
  {| breaches := []; warnings := []; loading := true; error := None;
     searchTerm := "" |}.

(** [Array.isArray(d) ? d : d.breaches || []] *)
Definition breachesOf (b : Body) : list Entry :=
  match b with
  | BArray l => l
  | BObject (Some l) _ => l
  | BObject None _ => []
  end.

Definition warningsOf (b : Body) : list Entry :=
  match b with
  | BArray l => l
  | BObject _ (Some l) => l
  | BObject _ None => []
  end.

(** [fetchSLAData], given the two responses that arrived, for bodies that
    were read as an array or an object; the paths through [catch] that a
    rejected request, an unreadable body or a [null] body take are in
    [SLADashboardFetch.fetchSLADataFrom] below. *)
Definition fetchSLAData (st : State) (breachesRes warningsRes : Response) : State :=
  if (negb (ok breachesRes) || negb (ok warningsRes))%bool then
    {| breaches := breaches st; warnings := warnings st; loading := false;
       error := Some "Failed to fetch SLA data"; searchTerm := searchTerm st |}
  else
    {| breaches := breachesOf (json breachesRes);
       warnings := warningsOf (json warningsRes);
       loading := false; error := None; searchTerm := searchTerm st |}.

(** The "Compliance Rate" card. *)
Definition complianceRate (st : State) : string :=
  if (length (breaches st) =? 0)%nat then "100%" else "N/A".

Definition formatTimeRemaining (minutes : numfield) : string :=
  match minutes with
  | NUndefined | NNull => "N/A"
  | NNum m =>
      if m <? 0 then "Overdue"
      else
        let hours := m / 60 in
        let mins := Z.rem m 60 in
        if hours >? 24 then
          let days := hours / 24 in
          numberToString days +:+ "d " +:+ numberToString (Z.rem hours 24) +:+ "h"
        else if hours >? 0 then
          numberToString hours +:+ "h " +:+ numberToString mins +:+ "m"
        else numberToString mins +:+ "m"
  end.

(** The predicate passed to [data.filter] in [filterData]. *)
Definition matchesSearch (term : string) (item : Entry) : bool :=
  (includes (toLowerCase (toString (or (or (ticket_number item) (id item)) (VStr ""))))
            (toLowerCase term)
   || includes (toLowerCase (orStr (title item) (orStr (short_description item) "")))
               (toLowerCase term))%bool.

(** [filterData] on array contents. *)
Definition filterItems (term : string) (data : list Entry) : list Entry :=
  if negb (truthyString term) then data else List.filter (matchesSearch term) data.

(** Arrays live in a store; a state variable holds a reference. *)
Definition loc := positive.
Abbreviation store := (gmap loc (list Entry)).

(** [filterData(data)] with the search term [term]: the reference returned
    and the store afterwards. [Array.prototype.filter] allocates a new
    array; a reference outside the store cannot occur. *)
Definition filterData (term : string) (data : loc) (h : store) : option (loc * store) :=
  if negb (truthyString term) then Some (data, h)
  else
    match h !! data with
    | Some items =>
        let r := fresh (dom h) in
        Some (r, <[r := List.filter (matchesSearch term) items]> h)
    | None => None
    end.

(** The cells of the "Overdue By" and "Time Remaining" columns. *)
Definition overdueCell (e : Entry) : string :=
  formatTimeRemaining (overdue_minutes e).

Definition remainingCell (e : Entry) : string :=
  formatTimeRemaining (orNum (time_remaining_minutes e) (minutes_remaining e)).

End SLADashboard.

(** ** AssignmentGroups: the agent workload table *)
Module AssignmentGroups.
Import JS.

(** The result of JavaScript arithmetic on the workload figures. *)
Inductive number :=
| Fin (q : Q)
| NaN.

(** A JSON numeric field holding a ratio or a count. *)
Inductive qfield :=
| QUndefined
| QNull
| QNum (q : Q).

Definition truthyQ (v : qfield) : bool :=
  match v with
  | QNum q => negb (Qeq_bool q 0)
  | _ => false
  end.

(** [ToNumber]: [undefined] is [NaN], [null] is [0]. *)
Definition toNumber (v : qfield) : number :=
  match v with
  | QUndefined => NaN
  | QNull => Fin 0
  | QNum q => Fin q
  end.

Record Agent := {
  name : option string;
  workload_percentage : qfield;
  assigned_tickets : qfield;
  status : option string;
}.

Record Workload := {
  max_capacity : qfield;
  agents : list Agent;
}.

(** [workload.max_capacity || 10] *)
Definition capacity (w : Workload) : Q :=
  match max_capacity w with
  | QNum c => if Qeq_bool c 0 then 10 else c
  | _ => 10
  end.

(** [(agent.assigned_tickets / capacity) * 100] *)
Definition computedPercent (w : Workload) (a : Agent) : number :=
  match toNumber (assigned_tickets a) with
  | Fin n => Fin ((n / capacity w) * 100)
  | NaN => NaN
  end.

(** [agent.workload_percentage || (agent.assigned_tickets /
    (workload.max_capacity || 10)) * 100] *)
Definition workloadPercent (w : Workload) (a : Agent) : number :=
  if truthyQ (workload_percentage a) then toNumber (workload_percentage a)
  else computedPercent w a.

(** [p >= k]; every comparison with [NaN] is false. *)
Definition geq (p : number) (k : Q) : bool :=
  match p with
  | Fin q => Qle_bool k q
  | NaN => false
  end.

Definition getWorkloadColor (percentage : number) : string :=
  if geq percentage 90 then "#d32f2f"
  else if geq percentage 70 then "#f57c00"
  else if geq percentage 50 then "#fbc02d"
  else "#388e3c".

(** The label of the status chip:
    [agent.status || (workloadPercent >= 90 ? 'Overloaded' : 'Available')]. *)
Definition statusLabel (a : Agent) (p : number) : string :=
  orStr (status a) (if geq p 90 then "Overloaded" else "Available").

Record Row := {
  row_percent : number;
  row_label : string;
  row_color : string;
}.

(** One table row per agent, as [workload.agents.map] builds them. *)
Definition agentRow (w : Workload) (a : Agent) : Row :=
  let p := workloadPercent w a in
  {| row_percent := p; row_label := statusLabel a p; row_color := getWorkloadColor p |}.

Definition agentRows (w : Workload) : list Row := List.map (agentRow w) (agents w).

End AssignmentGroups.

(** ** PasswordResetForm: the ticket created on submission *)
Module PasswordResetForm.
Import JS.

Record FormData := {
  username : string;
  email : string;
  reason : string;
  contactNumber : string;
  preferredContact : string;
  urgency : string;
}.

Definition initialFormData : FormData :=
  {| username := ""; email := ""; reason := ""; contactNumber := "";
     preferredContact := "phone"; urgency := "medium" |}.

Record Errors := {
  username_error : option string;
  reason_error : option string;
  contactNumber_error : option string;
}.

Definition requiredField (field message : string) : option string :=
  if truthyString (trim field) then None else Some message.

Definition validationErrors (fd : FormData) : Errors :=
  {| username_error := requiredField (username fd) "SAP Username is required";
     reason_error :=
       requiredField (reason fd) "Please provide a reason for the password reset";
     contactNumber_error :=
       requiredField (contactNumber fd)
         "Contact number is required for identity verification" |}.

(** [Object.keys(newErrors).length === 0] *)
Definition validateForm (fd : FormData) : bool :=
  match validationErrors fd with
  | {| username_error := None; reason_error := None; contactNumber_error := None |} => true
  | _ => false
  end.

(** The fields of the request body that do not depend on free text. *)
Record TicketPayload := {
  event_type : string;
  source_system : string;
  ticket_title : string;
  category : string;
  subcategory : string;
  ticket_priority : string;
  assignment_group : string;
  ticket_type : string;
  sla_hours : Z;
  affected_user : string;
  requires_approval : bool;
  auto_assign : bool;
}.

Definition ticketPayload (fd : FormData) : TicketPayload :=
  {| event_type := "password_reset";
     source_system := "servicenow_self_service";
     ticket_title := "SAP Password Reset Request: " +:+ username fd;
     category := "User Account";
     subcategory := "Password Reset";
     ticket_priority := urgency fd;
     assignment_group := "SAP User Management";
     ticket_type := "incident";
     sla_hours :=
       if String.eqb (urgency fd) "high" then 4
       else if String.eqb (urgency fd) "critical" then 1
       else 24;
     affected_user := username fd;
     requires_approval := false;
     auto_assign := true |}.

(** [handleSubmit]: nothing is sent unless the form validates. *)
Definition handleSubmit (fd : FormData) : option TicketPayload :=
  if validateForm fd then Some (ticketPayload fd) else None.

End PasswordResetForm.

(** ** The SLA evaluation and aggregation service

    The dashboards only display what the endpoints [/api/sla/check-breaches],
    [/api/sla/warnings] and [/api/sla/ticket/{id}] return; the service behind
    them is not among the client sources. Times are minutes on an integer
    clock. *)
Module SLAService.

Record Policy := {
  policy_id : Z;
  policy_name : string;
  policy_category : option string;
  policy_priority : option string;
  response_target_minutes : Z;
  resolution_target_minutes : Z;
  warning_threshold_percent : Z;
  active : bool;
}.

Record Ticket := {
  id : Z;
  number : string;
  category : string;
  priority : string;
  status : string;
  created_at : Z;
  responded_at : option Z;
  resolved_at : option Z;
}.

Inductive Metric := Response | Resolution.

Inductive SlaStatus := on_track | warning | breached | not_applicable.

Record EvaluationResult := {
  ticket_id : Z;
  sla_status : SlaStatus;
  metric : Metric;
  target_minutes : Z;
  elapsed_minutes : Z;
  remaining_minutes : Z;
}.

#[global] Instance SlaStatus_eq_dec : EqDecision SlaStatus.
Proof. solve_decision. Defined.

Definition optMatches (field : option string) (wanted : option string) : bool :=
  match field, wanted with
  | None, None => true
  | Some a, Some b => String.eqb a b
  | _, _ => false
  end.

Definition policyIs (c p : option string) (pol : Policy) : bool :=
  (active pol && optMatches (policy_category pol) c
   && optMatches (policy_priority pol) p)%bool.

(** Modelled from the spec: the policy store's [find_policy], which is not
    among the client sources. Resolution order (4.1): exact (category,
    priority) match; then (category, any priority); then (any category,
    priority); then the global default; [None] is [PolicyNotFound]. *)
Definition find_policy (ps : list Policy) (c p : string) : option Policy :=
  match List.find (policyIs (Some c) (Some p)) ps with
  | Some pol => Some pol
  | None =>
      match List.find (policyIs (Some c) None) ps with
      | Some pol => Some pol
      | None =>
          match List.find (policyIs None (Some p)) ps with
          | Some pol => Some pol
          | None => List.find (policyIs None None) ps
          end
      end
  end.

Definition target (m : Metric) (pol : Policy) : Z :=
  match m with
  | Response => response_target_minutes pol
  | Resolution => resolution_target_minutes pol
  end.

Definition completion (m : Metric) (t : Ticket) : option Z :=
  match m with
  | Response => responded_at t
  | Resolution => resolved_at t
  end.

(** The derived due dates of a ticket under a policy. *)
Definition response_due (t : Ticket) (pol : Policy) : Z :=
  created_at t + response_target_minutes pol.

Definition resolution_due (t : Ticket) (pol : Policy) : Z :=
  created_at t + resolution_target_minutes pol.

Definition elapsed (m : Metric) (t : Ticket) (now : Z) : Z :=
  match m with
  | Resolution => now - created_at t
  | Response =>
      match responded_at t with
      | None => now - created_at t
      | Some r => r - created_at t
      end
  end.

(** Modelled from the spec: the evaluator's [evaluate] (4.2), which is not
    among the client sources. remaining = target - elapsed; an open metric is
    [breached] if remaining < 0, [warning] if remaining <= target * (1 -
    warning_threshold_percent / 100), else [on_track]; a completed metric is
    [on_track] if it was completed on time and [breached] if completed
    late. *)
Definition evaluate (m : Metric) (t : Ticket) (pol : Policy) (now : Z) : EvaluationResult :=
  let tgt := target m pol in
  let el := elapsed m t now in
  let rem := tgt - el in
  {| ticket_id := id t;
     sla_status :=
       match completion m t with
       | None =>
           if rem <? 0 then breached
           else if 100 * rem <=? tgt * (100 - warning_threshold_percent pol) then warning
           else on_track
       | Some done => if done - created_at t <=? tgt then on_track else breached
       end;
     metric := m;
     target_minutes := tgt;
     elapsed_minutes := el;
     remaining_minutes := rem |}.

(** Both metrics of a ticket; a ticket without a policy has no SLA. *)
Definition evaluateBoth (ps : list Policy) (now : Z) (t : Ticket) : list EvaluationResult :=
  match find_policy ps (category t) (priority t) with
  | Some pol => [evaluate Response t pol now; evaluate Resolution t pol now]
  | None => []
  end.

Definition isOpen (t : Ticket) : bool :=
  negb (String.eqb (status t) "resolved" || String.eqb (status t) "closed"
        || String.eqb (status t) "cancelled")%bool.

Definition hasStatus (s : SlaStatus) (r : EvaluationResult) : bool :=
  bool_decide (sla_status r = s).

(** The entry with the least remaining time (the first one on ties). *)
Fixpoint mostUrgent (rs : list EvaluationResult) : option EvaluationResult :=
  match rs with
  | [] => None
  | r :: rest =>
      match mostUrgent rest with
      | Some r' => if remaining_minutes r' <? remaining_minutes r then Some r' else Some r
      | None => Some r
      end
  end.

(** The listing entry of a ticket is its most urgent metric in the listed
    status. *)
Definition breachEntry (rs : list EvaluationResult) : option EvaluationResult :=
  mostUrgent (List.filter (hasStatus breached) rs).

Definition warningEntry (rs : list EvaluationResult) : option EvaluationResult :=
  if List.existsb (hasStatus breached) rs then None
  else mostUrgent (List.filter (hasStatus warning) rs).

(** Ascending remaining minutes, ties by ascending ticket id. *)
Definition entry_le (a b : EvaluationResult) : Prop :=
  remaining_minutes a < remaining_minutes b
  \/ (remaining_minutes a = remaining_minutes b /\ ticket_id a <= ticket_id b).

#[global] Instance entry_le_dec : RelDecision entry_le.
Proof. intros a b. unfold entry_le. apply _. Defined.

(** Modelled from the spec: the rate of 4.3, from the number of tickets ever
    breached and the number of tickets with a resolved metric; [None] is the
    sentinel N/A. *)
Definition compliance_rate (ever_breached resolved : nat) : option Q :=
  if (resolved =? 0)%nat then None
  else Some (100 * (1 - inject_Z (Z.of_nat ever_breached) / inject_Z (Z.of_nat resolved)))%Q.

Record ScanResult := {
  breaches : list EvaluationResult;
  warnings : list EvaluationResult;
  rate : option Q;
}.

Definition everBreached (ps : list Policy) (now : Z) (t : Ticket) : bool :=
  List.existsb (hasStatus breached) (evaluateBoth ps now t).

Definition hasResolvedMetric (ps : list Policy) (t : Ticket) : bool :=
  match find_policy ps (category t) (priority t), resolved_at t with
  | Some _, Some _ => true
  | _, _ => false
  end.

(** Modelled from the spec: the aggregator's [scan] (4.3), which is not among
    the client sources. Every open ticket is evaluated on both metrics; it is
    listed under breaches if either metric is breached, under warnings if
    either is warning and neither is breached; each list is sorted by
    [entry_le]. *)
Definition scan (tickets : list Ticket) (ps : list Policy) (now : Z) : ScanResult :=
  let evaluated := List.map (evaluateBoth ps now) (List.filter isOpen tickets) in
  let resolved := List.filter (hasResolvedMetric ps) tickets in
  {| breaches := merge_sort entry_le (omap breachEntry evaluated);
     warnings := merge_sort entry_le (omap warningEntry evaluated);
     rate := compliance_rate (length (List.filter (everBreached ps now) resolved))
                             (length resolved) |}.

(** The tickets a listing names. *)
Definition listedIds (l : list EvaluationResult) : list Z := List.map ticket_id l.

End SLAService.

(** ** The properties as the specification words them

    These follow the specification's sentences, not the code; the theorems
    below compare them with the components. *)
Module AsStated.
Import JS.

(** A rate is displayed as the sentinel "N/A" when there is none, and as
    a percentage otherwise (a whole number [p] as "p%"). *)
Definition rendersRate (rate : option Q) (shown : string) : Prop :=
  match rate with
  | None => shown = "N/A"
  | Some q =>
      shown <> "N/A"
      /\ forall p : Z, (q == inject_Z p)%Q -> shown = numberToString p +:+ "%"
  end.

(** The compliance card shows the rate of 4.3 for [ever_breached] breached
    tickets among [resolved] resolved ones. *)
Definition complianceDisplay (ever_breached resolved : nat) (st : SLADashboard.State) : Prop :=
  rendersRate (SLAService.compliance_rate ever_breached resolved)
              (SLADashboard.complianceRate st).

(** Status thresholds of 4.4, compared up to letter case. *)
Definition statusBuckets (p : Q) (label : string) : Prop :=
  ((p < 50)%Q -> toLowerCase label = "available")
  /\ ((50 <= p)%Q /\ (p <= 89)%Q -> toLowerCase label = "busy")
  /\ ((90 <= p)%Q -> toLowerCase label = "overloaded").

Definition rowStatus (r : AssignmentGroups.Row) : Prop :=
  match AssignmentGroups.row_percent r with
  | AssignmentGroups.Fin p => statusBuckets p (AssignmentGroups.row_label r)
  | AssignmentGroups.NaN => True
  end.

(** The errors of the workload calculation in the taxonomy of section 7. *)
Inductive WorkloadError := InvalidCapacityConfig.

(** What the caller of the component's calculation receives: the component
    has no failing path, every percentage is computed and returned. *)
Definition computeWorkload (w : AssignmentGroups.Workload) (a : AssignmentGroups.Agent)
  : WorkloadError + AssignmentGroups.number :=
  inr (AssignmentGroups.workloadPercent w a).

(** An unconfigured capacity is reported, not replaced by a default. *)
Definition refusesUnconfigured (w : AssignmentGroups.Workload) (a : AssignmentGroups.Agent) : Prop :=
  AssignmentGroups.truthyQ (AssignmentGroups.max_capacity w) = false ->
  computeWorkload w a = inl InvalidCapacityConfig.

(** percentage = assigned_ticket_count / group_max_capacity * 100, for every
    agent. *)
Definition percentFormula (w : AssignmentGroups.Workload) (a : AssignmentGroups.Agent) : Prop :=
  forall n c : Q,
    AssignmentGroups.assigned_tickets a = AssignmentGroups.QNum n ->
    AssignmentGroups.max_capacity w = AssignmentGroups.QNum c ->
    exists p, AssignmentGroups.workloadPercent w a = AssignmentGroups.Fin p
              /\ (p == n / c * 100)%Q.

(** For a fixed capacity the percentage is non-decreasing in the number of
    assigned tickets. *)
Definition percentMonotone (w : AssignmentGroups.Workload) (a1 a2 : AssignmentGroups.Agent) : Prop :=
  forall n1 n2 p1 p2 : Q,
    AssignmentGroups.assigned_tickets a1 = AssignmentGroups.QNum n1 ->
    AssignmentGroups.assigned_tickets a2 = AssignmentGroups.QNum n2 ->
    (n1 <= n2)%Q ->
    AssignmentGroups.workloadPercent w a1 = AssignmentGroups.Fin p1 ->
    AssignmentGroups.workloadPercent w a2 = AssignmentGroups.Fin p2 ->
    (p1 <= p2)%Q.

End AsStated.

(** ** Sample data *)
Module Samples.
Import JS.

Definition breachRow : SLADashboard.Entry :=
  {| SLADashboard.ticket_id := VNum 7;
     SLADashboard.id := VUndefined;
     SLADashboard.ticket_number := VStr "INC0007";
     SLADashboard.title := Some "VPN down";
     SLADashboard.short_description := None;
     SLADashboard.priority := Some "high";
     SLADashboard.overdue_minutes := NNum 10;
     SLADashboard.time_remaining_minutes := NUndefined;
     SLADashboard.minutes_remaining := NUndefined |}.

Definition okArray (l : list SLADashboard.Entry) : SLADashboard.Response :=
  {| SLADashboard.ok := true; SLADashboard.json := SLADashboard.BArray l |}.

(** The dashboard after a fetch that returned no breach and no warning. *)
Definition quietDashboard : SLADashboard.State :=
  SLADashboard.fetchSLAData SLADashboard.initialState (okArray []) (okArray []).

(** The dashboard after a fetch that returned one breach. *)
Definition oneBreachDashboard : SLADashboard.State :=
  SLADashboard.fetchSLAData SLADashboard.initialState (okArray [breachRow]) (okArray []).

(** A store holding the breach listing at reference 1. *)
Definition listingStore : gmap SLADashboard.loc (list SLADashboard.Entry) :=
  {[ 1%positive := [breachRow] ]}.

Definition agentWith (pct assigned : AssignmentGroups.qfield) : AssignmentGroups.Agent :=
  {| AssignmentGroups.name := Some "Asha";
     AssignmentGroups.workload_percentage := pct;
     AssignmentGroups.assigned_tickets := assigned;
     AssignmentGroups.status := None |}.

Definition groupWith (cap : AssignmentGroups.qfield) : AssignmentGroups.Workload :=
  {| AssignmentGroups.max_capacity := cap; AssignmentGroups.agents := [] |}.

Definition formWith (u : string) : PasswordResetForm.FormData :=
  {| PasswordResetForm.username := "JDOE";
     PasswordResetForm.email := "";
     PasswordResetForm.reason := "locked out";
     PasswordResetForm.contactNumber := "5550100";
     PasswordResetForm.preferredContact := "phone";
     PasswordResetForm.urgency := u |}.

Definition policy60 : SLAService.Policy :=
  {| SLAService.policy_id := 1;
     SLAService.policy_name := "default";
     SLAService.policy_category := None;
     SLAService.policy_priority := None;
     SLAService.response_target_minutes := 15;
     SLAService.resolution_target_minutes := 60;
     SLAService.warning_threshold_percent := 75;
     SLAService.active := true |}.

Definition ticketAt (i created : Z) (responded : option Z) : SLAService.Ticket :=
  {| SLAService.id := i;
     SLAService.number := "INC";
     SLAService.category := "network";
     SLAService.priority := "high";
     SLAService.status := "open";
     SLAService.created_at := created;
     SLAService.responded_at := responded;
     SLAService.resolved_at := None |}.

(** Six open tickets seen at minute 1000: tickets 1, 3, 4 and 6 are past a
    target, ticket 2 is close to its resolution target, ticket 5 is fresh. *)
Definition openTickets : list SLAService.Ticket :=
  [ticketAt 1 930 (Some 935); ticketAt 2 950 (Some 951); ticketAt 3 900 (Some 901);
   ticketAt 4 930 (Some 931); ticketAt 5 990 None; ticketAt 6 900 None].

End Samples.

(** ** Object literals used as lookup tables *)
Module JSObject.
Import JS.

(** The member names every object literal inherits from
    [Object.prototype]. *)
Definition prototypeKeys : list string :=
  ["constructor"; "__defineGetter__"; "__defineSetter__"; "hasOwnProperty";
   "__lookupGetter__"; "__lookupSetter__"; "isPrototypeOf";
   "propertyIsEnumerable"; "toString"; "valueOf"; "__proto__"; "toLocaleString"].

(** What [table[key]] finds in a literal whose own members are strings. *)
Inductive member :=
| Own (s : string)
| Inherited (key : string)
| Missing.

Definition get (own : gmap string string) (key : string) : member :=
  match own !! key with
  | Some s => Own s
  | None => if bool_decide (key ∈ prototypeKeys) then Inherited key else Missing
  end.

(** The value of [table[key] || fallback]: a string, or the inherited
    function or object found under [key] (all of them truthy). *)
Inductive looked :=
| Str (s : string)
| Obj (key : string).

Definition getOr (own : gmap string string) (key fallback : string) : looked :=
  match get own key with
  | Own s => Str (if truthyString s then s else fallback)
  | Inherited k => Obj k
  | Missing => Str fallback
  end.

(** [s?.toLowerCase()] used as a member name: [undefined] names the member
    "undefined". *)
Definition lowerKey (s : option string) : string :=
  match s with
  | Some x => toLowerCase x
  | None => "undefined"
  end.

End JSObject.

(** ** Predicates on strings used in the statements *)
Module Text.
Import JS.

Fixpoint isBlank (s : string) : bool :=
  match s with
  | EmptyString => true
  | String c r => (isSpace c && isBlank r)%bool
  end.

Definition isDigit (c : ascii) : bool :=
  let n := nat_of_ascii c in ((48 <=? n)%nat && (n <=? 57)%nat)%bool.

Fixpoint allDigits (s : string) : bool :=
  match s with
  | EmptyString => true
  | String c r => (isDigit c && allDigits r)%bool
  end.

(** Text of the 7-bit ASCII range, on which [String.prototype.toLowerCase]
    works character by character. *)
Fixpoint isAscii (s : string) : bool :=
  match s with
  | EmptyString => true
  | String c r => ((nat_of_ascii c <? 128)%nat && isAscii r)%bool
  end.

End Text.

(** ** SLADashboard.js: colours and the detail dialog *)
Module SLADashboardView.
Import JS JSObject SLADashboard.

Definition priorityColors : gmap string string :=
  list_to_map [("critical", "#d32f2f"); ("high", "#f57c00");
               ("medium", "#fbc02d"); ("low", "#388e3c")].

(** [colors[priority?.toLowerCase()] || '#757575'] *)
Definition getPriorityColor (priority : option string) : looked :=
  getOr priorityColors (lowerKey priority) "#757575".

(** [ticketSLA.time_remaining_minutes < 0 ? '#d32f2f' : 'inherit']: in the
    comparison [undefined] is [NaN] and [null] is [0]. *)
Definition timeRemainingColor (v : numfield) : string :=
  match v with
  | NNum m => if m <? 0 then "#d32f2f" else "inherit"
  | NUndefined | NNull => "inherit"
  end.

(** The two summary counters derived from the listings. *)
Definition totalAtRisk (st : State) : nat := (length (breaches st) + length (warnings st))%nat.

Definition shownCount (term : string) (data : list Entry) : nat :=
  length (filterItems term data).

End SLADashboardView.

(** ** SLADashboard.js: every way [fetchSLAData] can end *)
Module SLADashboardFetch.
Import JS SLADashboard.

(** What [await res.json()] gives: a rejection with the message of its
    error; [null], with the message of the [TypeError] the engine raises when
    a member of it is read; a number, string or boolean; an array or an
    object. *)
Inductive Parsed :=
| ParseError (message : string)
| ParsedNull (typeError : string)
| ParsedPrimitive
| ParsedBody (b : Body).

Record RawResponse := { raw_ok : bool; raw_json : Parsed }.

(** What [await Promise.all([fetch(..), fetch(..)])] gives: a rejection with
    the message of its error, or the two responses. *)
Inductive Settled :=
| Rejected (message : string)
| Resolved (breachesRes warningsRes : RawResponse).

(** The [catch] branch followed by [finally]. *)
Definition failed (st : State) (message : string) : State :=
  {| breaches := breaches st; warnings := warnings st; loading := false;
     error := Some message; searchTerm := searchTerm st |}.

(** [Array.isArray(d) ? d : d.breaches || []] for a body that is not
    [null]: a primitive has no members. *)
Definition breachesOfParsed (p : Parsed) : list Entry :=
  match p with
  | ParsedBody b => breachesOf b
  | _ => []
  end.

Definition warningsOfParsed (p : Parsed) : list Entry :=
  match p with
  | ParsedBody b => warningsOf b
  | _ => []
  end.

(** [fetchSLAData] from the outcome of the two requests. Both bodies are
    read before either listing is set; [setBreaches] runs before the
    warnings body is inspected. *)
Definition fetchSLADataFrom (st : State) (o : Settled) : State :=
  match o with
  | Rejected message => failed st message
  | Resolved rb rw =>
      if (negb (raw_ok rb) || negb (raw_ok rw))%bool then failed st "Failed to fetch SLA data"
      else
        match raw_json rb, raw_json rw with
        | ParseError message, _ => failed st message
        | _, ParseError message => failed st message
        | ParsedNull message, _ => failed st message
        | pb, ParsedNull message =>
            {| breaches := breachesOfParsed pb; warnings := warnings st;
               loading := false; error := Some message; searchTerm := searchTerm st |}
        | pb, pw =>
            {| breaches := breachesOfParsed pb; warnings := warningsOfParsed pw;
               loading := false; error := None; searchTerm := searchTerm st |}
        end
  end.

(** A response whose body was read as an array or an object. *)
Definition readResponse (r : Response) : RawResponse :=
  {| raw_ok := ok r; raw_json := ParsedBody (json r) |}.

(** Both bodies can be used: neither unreadable nor [null]. *)
Definition usable (p : Parsed) : bool :=
  match p with
  | ParseError _ | ParsedNull _ => false
  | ParsedPrimitive | ParsedBody _ => true
  end.

End SLADashboardFetch.

(** ** AssignmentGroups: the groups table and the summary cards *)
Module GroupsTable.
Import JS JSObject.

(** A member is given by name or as a record with an optional name. *)
Inductive Member :=
| MemberName (s : string)
| MemberRecord (member_name : option string).

Record Group := {
  name : option string;
  description : option string;
  manager : option string;
  manager_name : option string;
  members : option (list Member);
  member_count : numfield;
  open_tickets : numfield;
  ticket_count : numfield;
  status : option string;
  is_active : option bool;
}.

(** [v || 0] *)
Definition numOr0 (v : numfield) : Z :=
  match v with
  | NNum n => n
  | NUndefined | NNull => 0
  end.



(** [g.open_tickets || g.ticket_count || 0] *)
Definition ticketTotal (g : Group) : Z :=
  numOr0 (orNum (orNum (open_tickets g) (ticket_count g)) (NNum 0)).


Definition getTotalTickets (groups : list Group) : Z :=
  fold_left (fun sum g => sum + ticketTotal g) groups 0.

Definition truthyFlag (b : option bool) : bool :=
  match b with
  | Some true => true
  | _ => false
  end.

(** [g.status === 'active' || g.is_active] *)
Definition isActive (g : Group) : bool :=
  match status g with
  | Some s => (String.eqb s "active" || truthyFlag (is_active g))%bool
  | None => truthyFlag (is_active g)
  end.

Definition getActiveGroups (groups : list Group) : nat :=
  length (List.filter isActive groups).

Definition statusColors : gmap string string :=
  list_to_map [("active", "#388e3c"); ("inactive", "#757575");
               ("overloaded", "#d32f2f")].

(** [colors[status?.toLowerCase()] || '#757575'] *)
Definition getStatusColor (st : option string) : looked :=
  getOr statusColors (lowerKey st) "#757575".

(** The status chip of a row: its label and its background. *)
Definition statusChipLabel (g : Group) : string :=
  orStr (status g) (if truthyFlag (is_active g) then "Active" else "Inactive").

Definition statusChipColor (g : Group) : looked :=
  getStatusColor
    (Some (orStr (status g) (if truthyFlag (is_active g) then "active" else "inactive"))).

(** The ticket chip of a row. *)
Definition ticketChipLabel (g : Group) : Z := ticketTotal g.

Definition ticketChipColor (g : Group) : string :=
  if ticketTotal g >? 10 then "error" else "default".






(** [group.manager || group.manager_name || 'Unassigned'] *)
Definition managerCell (g : Group) : string :=
  orStr (manager g) (orStr (manager_name g) "Unassigned").

(** The predicate of [filterGroups]. *)
Definition matchesGroup (term : string) (g : Group) : bool :=
  (includes (toLowerCase (orStr (name g) "")) (toLowerCase term)
   || includes (toLowerCase (orStr (description g) "")) (toLowerCase term)
   || includes (toLowerCase (orStr (manager g) "")) (toLowerCase term))%bool.

Definition filterGroups (term : string) (data : list Group) : list Group :=
  if negb (truthyString term) then data else List.filter (matchesGroup term) data.

(** The sum of a column of numbers. *)
Definition sumZ (l : list Z) : Z := fold_right Z.add 0 l.

(** [Math.min(workloadPercent, 100)], the value of the progress bar. *)
Definition barValue (p : AssignmentGroups.number) : AssignmentGroups.number :=
  match p with
  | AssignmentGroups.Fin q => AssignmentGroups.Fin (Qmin q 100)
  | AssignmentGroups.NaN => AssignmentGroups.NaN
  end.

End GroupsTable.

(** ** PasswordResetForm: editing the form and the result dialog *)
Module PasswordResetDialog.
Import JS PasswordResetForm.

(** The field names [handleInputChange] is called with. *)
Inductive Field :=
| Username | Email | Reason | ContactNumber | PreferredContact | Urgency.

Definition fieldName (f : Field) : string :=
  match f with
  | Username => "username"
  | Email => "email"
  | Reason => "reason"
  | ContactNumber => "contactNumber"
  | PreferredContact => "preferredContact"
  | Urgency => "urgency"
  end.

Definition getField (f : Field) (fd : FormData) : string :=
  match f with
  | Username => username fd
  | Email => email fd
  | Reason => reason fd
  | ContactNumber => contactNumber fd
  | PreferredContact => preferredContact fd
  | Urgency => urgency fd
  end.

(** [{ ...prev, [field]: value }] *)
Definition setField (f : Field) (v : string) (fd : FormData) : FormData :=
  {| username := if f is Username then v else username fd;
     email := if f is Email then v else email fd;
     reason := if f is Reason then v else reason fd;
     contactNumber := if f is ContactNumber then v else contactNumber fd;
     preferredContact := if f is PreferredContact then v else preferredContact fd;
     urgency := if f is Urgency then v else urgency fd |}.

(** The component state the form edits: the data and the [errors] object. *)
Record FormState := {
  formData : FormData;
  errors : gmap string string;
}.

Definition truthyError (errs : gmap string string) (key : string) : bool :=
  match errs !! key with
  | Some e => truthyString e
  | None => false
  end.

Definition handleInputChange (f : Field) (value : string) (st : FormState) : FormState :=
  {| formData := setField f value (formData st);
     errors :=
       if truthyError (errors st) (fieldName f)
       then <[fieldName f := ""]> (errors st)
       else errors st |}.

Definition addError (key : string) (e : option string) (errs : gmap string string)
  : gmap string string :=
  match e with
  | Some msg => <[key := msg]> errs
  | None => errs
  end.

(** The [newErrors] object [validateForm] builds. *)
Definition errorsObject (e : Errors) : gmap string string :=
  addError "contactNumber" (contactNumber_error e)
    (addError "reason" (reason_error e)
       (addError "username" (username_error e) ∅)).

(** [validateForm] as a step of the component: [setErrors(newErrors)] and
    the verdict. *)
Definition validateStep (st : FormState) : FormState * bool :=
  ({| formData := formData st; errors := errorsObject (validationErrors (formData st)) |},
   validateForm (formData st)).

(** The members of the answer of [/api/tickets/auto-create] the component
    reads. *)
Record TicketFields := {
  ticket_number : option string;
  ticket_id : option string;
  response_group : option string;
  sla_response_due : option string;
  detail : option string;
}.

(** What [await response.json()] gives: a rejection, [null], or a value
    with the members above (each possibly absent). *)
Inductive ResponseBody :=
| Unreadable
| NullBody
| Data (d : TicketFields).

(** What the request gives: a rejected [fetch], or a response with its
    [ok] flag and its body. *)
Inductive Fetched :=
| NoResponse
| Responded (ok : bool) (body : ResponseBody).

Inductive Result :=
| Success (number id group due : option string)
| Failure (error : string).

(** [setResult] in the [catch] branch. *)
Definition connectionFailure : Result :=
  Failure "Failed to connect to ServiceNow. Please try again or call IT Support.".

(** The result [handleSubmit] sets. The body is read before [response.ok]
    is tested, so a rejected [json()] and a member read on [null] end in the
    [catch] branch whatever the flag is. *)
Definition resultOfResponse (r : Fetched) : Result :=
  match r with
  | NoResponse => connectionFailure
  | Responded _ Unreadable => connectionFailure
  | Responded _ NullBody => connectionFailure
  | Responded true (Data d) =>
      Success (ticket_number d) (ticket_id d) (response_group d) (sla_response_due d)
  | Responded false (Data d) => Failure (orStr (detail d) "Failed to create ticket")
  end.

Definition errorText (r : Result) : option string :=
  match r with
  | Success _ _ _ _ => None
  | Failure e => Some e
  end.

(** [handleCloseDialog]: whether [navigate('/')] is called. *)
Definition handleCloseDialog (result : option Result) : bool :=
  match result with
  | Some (Success _ _ _ _) => true
  | _ => false
  end.

End PasswordResetDialog.

(** ** ServiceRequestForm and its three wrappers *)
Module ServiceRequestForm.
Import JS.

Record RequestData := {
  category : string;
  subcategory : string;
  application : string;
  shortDescription : string;
  detailedDescription : string;
  contactNumber : string;
  preferredContact : string;
  urgency : string;
  attachments : list string;
}.

Definition initialRequestData : RequestData :=
  {| category := ""; subcategory := ""; application := "";
     shortDescription := ""; detailedDescription := ""; contactNumber := "";
     preferredContact := "email"; urgency := "medium"; attachments := [] |}.

Record RequestErrors := {
  shortDescription_error : option string;
  detailedDescription_error : option string;
  contactNumber_error : option string;
}.

Definition validationErrors (formType : string) (fd : RequestData) : RequestErrors :=
  {| shortDescription_error :=
       if truthyString (trim (shortDescription fd)) then None
       else Some "Short description is required";
     detailedDescription_error :=
       if truthyString (trim (detailedDescription fd)) then None
       else Some "Please describe your issue";
     contactNumber_error :=
       if (String.eqb formType "problem" && negb (truthyString (trim (contactNumber fd))))%bool
       then Some "Contact number is required for problem reports"
       else None |}.

Definition validateForm (formType : string) (fd : RequestData) : bool :=
  match validationErrors formType fd with
  | {| shortDescription_error := None; detailedDescription_error := None;
       contactNumber_error := None |} => true
  | _ => false
  end.

Definition getTicketType (formType : string) : string :=
  if (String.eqb formType "password" || String.eqb formType "problem")%bool then "incident"
  else "service_request".



(** The body [createTicket] posts to [/tickets/]. *)
Record TicketData := {
  title : string;
  ticket_description : string;
  ticket_type : string;
  ticket_category : string;
  ticket_subcategory : string;
  contact_number : string;
  preferred_contact : string;
  ticket_urgency : string;
  priority : string;
}.

Definition ticketData (formType : string) (data : RequestData) : TicketData :=
  {| title := shortDescription data;
     ticket_description := detailedDescription data;
     ticket_type := getTicketType formType;
     ticket_category := category data;
     ticket_subcategory := subcategory data;
     contact_number := contactNumber data;
     preferred_contact := preferredContact data;
     ticket_urgency := urgency data;
     priority :=
       if String.eqb (urgency data) "high" then "high"
       else if String.eqb (urgency data) "low" then "low"
       else "medium" |}.

(** What a submission does: nothing, a call of the [onSubmit] callback, or a
    POST of a ticket. *)
Inductive Submission :=
| NotSubmitted
| HandedToCallback (data : RequestData)
| TicketPosted (body : TicketData).

(** [handleSubmit]; [hasOnSubmit] tells whether the [onSubmit] prop was
    given. *)
Definition handleSubmit (formType : string) (hasOnSubmit : bool) (fd : RequestData) : Submission :=
  if validateForm formType fd then
    if hasOnSubmit then HandedToCallback fd else TicketPosted (ticketData formType fd)
  else NotSubmitted.

(** The wrappers [PasswordResetForm], [ProblemReportForm] and
    [BusinessAppForm]: each passes its form type and an [onSubmit] that logs
    and alerts. *)
Inductive Wrapper := PasswordWrapper | ProblemWrapper | BusinessWrapper.

Definition wrapperFormType (w : Wrapper) : string :=
  match w with
  | PasswordWrapper => "password"
  | ProblemWrapper => "problem"
  | BusinessWrapper => "business"
  end.

Definition wrapperSubmit (w : Wrapper) (fd : RequestData) : Submission :=
  handleSubmit (wrapperFormType w) true fd.

End ServiceRequestForm.

(** ** More sample data *)
Module MoreSamples.
Import JS.

Definition warningRow (remaining fallback : numfield) : SLADashboard.Entry :=
  {| SLADashboard.ticket_id := VNum 9;
     SLADashboard.id := VUndefined;
     SLADashboard.ticket_number := VStr "INC0009";
     SLADashboard.title := Some "Mail queue";
     SLADashboard.short_description := None;
     SLADashboard.priority := Some "High";
     SLADashboard.overdue_minutes := NUndefined;
     SLADashboard.time_remaining_minutes := remaining;
     SLADashboard.minutes_remaining := fallback |}.

Definition groupWith (mgr mgrName st : option string) (active : option bool)
           (tickets : numfield) : GroupsTable.Group :=
  {| GroupsTable.name := Some "Network";
     GroupsTable.description := None;
     GroupsTable.manager := mgr;
     GroupsTable.manager_name := mgrName;
     GroupsTable.members := None;
     GroupsTable.member_count := NNum 4;
     GroupsTable.open_tickets := tickets;
     GroupsTable.ticket_count := NUndefined;
     GroupsTable.status := st;
     GroupsTable.is_active := active |}.

Definition requestWith (short detailed contact urg : string) : ServiceRequestForm.RequestData :=
  {| ServiceRequestForm.category := "Hardware";
     ServiceRequestForm.subcategory := "Printer";
     ServiceRequestForm.application := "";
     ServiceRequestForm.shortDescription := short;
     ServiceRequestForm.detailedDescription := detailed;
     ServiceRequestForm.contactNumber := contact;
     ServiceRequestForm.preferredContact := "email";
     ServiceRequestForm.urgency := urg;
     ServiceRequestForm.attachments := [] |}.

End MoreSamples.

(** * Properties *)

(** ** Strings *)
Section StringFacts.
Import JS.

Lemma lastChar_append (s t : string) :
  lastChar (s +:+ t) =
  match lastChar t with Some d => Some d | None => lastChar s end.
Proof.
  induction s as [|c s IH].
  - change ("" +:+ t) with t. destruct (lastChar t); reflexivity.
  - change (String c s +:+ t) with (String c (s +:+ t)).
    cbn [lastChar]. rewrite IH. destruct (lastChar t); reflexivity.
Qed.

Lemma truthyString_empty : truthyString "" = false.
Proof. reflexivity. Qed.

Lemma truthyString_false (s : string) : truthyString s = false -> s = "".
Proof.
  unfold truthyString. intros H. apply negb_false_iff in H.
  now apply String.eqb_eq in H.
Qed.

End StringFacts.

(** ** The SLA dashboard *)
Section DashboardFacts.
Import JS SLADashboard.

Lemma formatTimeRemaining_number_not_NA (m : Z) :
  formatTimeRemaining (NNum m) <> "N/A".
Proof.
  unfold formatTimeRemaining. intros H. apply (f_equal lastChar) in H.
  destruct (m <? 0); [discriminate|].
  destruct (m / 60 >? 24); [|destruct (m / 60 >? 0)];
    rewrite ?lastChar_append in H; simpl in H; discriminate.
Qed.

(** C10. [formatTimeRemaining] returns a string on every input: "N/A"
    exactly for [null] and [undefined], the constant "Overdue" for every
    negative number, the hours form "24h Xm" (X = minutes - 1440) for
    1440 <= minutes < 1500 since the days branch needs hours > 24, and the
    days form from 1500 minutes on. *)
Theorem formatTimeRemaining_cases :
  (forall v, formatTimeRemaining v = "N/A" <-> v = NNull \/ v = NUndefined)
  /\ (forall m, m < 0 -> formatTimeRemaining (NNum m) = "Overdue")
  /\ (forall m, 1440 <= m < 1500 ->
        formatTimeRemaining (NNum m) = "24h " +:+ numberToString (m - 1440) +:+ "m")
  /\ (forall m, 1500 <= m ->
        formatTimeRemaining (NNum m) =
        numberToString (m / 1440) +:+ "d " +:+ numberToString ((m / 60) mod 24) +:+ "h").
Proof.
  repeat split.
  - destruct v as [| |m]; intros H; auto.
    exfalso. exact (formatTimeRemaining_number_not_NA m H).
  - intros [->| ->]; reflexivity.
  - intros m Hm. unfold formatTimeRemaining.
    destruct (Z.ltb_spec m 0); [reflexivity|lia].
  - intros m Hm. unfold formatTimeRemaining.
    destruct (Z.ltb_spec m 0); [lia|].
    assert (Hh : m / 60 = 24).
    { symmetry. apply (Z.div_unique m 60 24 (m - 1440)); lia. }
    rewrite Hh. simpl.
    assert (Hr : Z.rem m 60 = m - 1440).
    { rewrite Z.rem_mod_nonneg by lia. symmetry.
      apply (Z.mod_unique m 60 24 (m - 1440)); lia. }
    rewrite Hr. reflexivity.
  - intros m Hm. unfold formatTimeRemaining.
    destruct (Z.ltb_spec m 0); [lia|].
    assert (Hh : 25 <= m / 60) by (apply Z.div_le_lower_bound; lia).
    destruct (Z.gtb_spec (m / 60) 24); [|lia].
    rewrite Z.rem_mod_nonneg by lia.
    rewrite Z.div_div by lia. reflexivity.
Qed.

Lemma formatTimeRemaining_cases_witness :
  formatTimeRemaining (NNum (-7)) = "Overdue"
  /\ formatTimeRemaining (NNum 1450) = "24h 10m"
  /\ formatTimeRemaining (NNum 1500) = "1d 1h".
Proof.
  destruct formatTimeRemaining_cases as (_ & Hneg & H24 & Hdays).
  split; [|split].
  - apply (Hneg (-7)). lia.
  - apply (H24 1450). lia.
  - apply (Hdays 1500). lia.
Defined.

(** C1 (as stated) fails: with no breach and no resolved ticket the card
    shows "100%" where the rate is the sentinel, and with one breach among
    four resolved tickets it shows "N/A" where the rate is 75%. *)
Lemma complianceRate_not_the_ratio :
  ~ AsStated.complianceDisplay 0 0 Samples.quietDashboard
  /\ ~ AsStated.complianceDisplay 1 4 Samples.oneBreachDashboard.
Proof.
  split.
  - unfold AsStated.complianceDisplay. simpl. discriminate.
  - unfold AsStated.complianceDisplay. simpl. intros [H _]. now apply H.
Qed.

(** C1 (amended). The compliance card shows "100%" exactly when the breach
    list held by the dashboard is empty and "N/A" exactly when it is not;
    after a successful fetch that list is the one the breach endpoint
    returned. No ratio is computed and no count of resolved tickets is
    consulted. *)
Theorem complianceRate_display :
  (forall st, complianceRate st = "100%" <-> breaches st = [])
  /\ (forall st, complianceRate st = "N/A" <-> breaches st <> [])
  /\ (forall st rb rw, ok rb = true -> ok rw = true ->
        breaches (fetchSLAData st rb rw) = breachesOf (json rb)).
Proof.
  split; [|split].
  - intros st. unfold complianceRate.
    destruct (breaches st); simpl; split; congruence.
  - intros st. unfold complianceRate.
    destruct (breaches st); simpl; split; congruence.
  - intros st rb rw Hb Hw. unfold fetchSLAData. rewrite Hb, Hw. reflexivity.
Qed.

Lemma complianceRate_display_witness :
  complianceRate Samples.oneBreachDashboard = "N/A"
  /\ breaches Samples.oneBreachDashboard = [Samples.breachRow].
Proof.
  destruct complianceRate_display as (_ & Hna & Hfetch).
  assert (Hb : breaches Samples.oneBreachDashboard = [Samples.breachRow]).
  { apply (Hfetch initialState (Samples.okArray [Samples.breachRow]) (Samples.okArray []));
      reflexivity. }
  split; [|exact Hb].
  apply (Hna Samples.oneBreachDashboard). rewrite Hb. discriminate.
Defined.

End DashboardFacts.

(** ** Filtering the listings *)
Section FilterFacts.
Import JS SLADashboard.

Lemma filterItems_empty_term (data : list Entry) : filterItems "" data = data.
Proof. reflexivity. Qed.

(** The rows shown are rows of the listing, in the order of the listing. *)
Lemma filterItems_sublist (term : string) (data : list Entry) :
  sublist (filterItems term data) data.
Proof.
  unfold filterItems. destruct (negb (truthyString term)); [reflexivity|].
  induction data as [|x l IH]; simpl; [constructor|].
  destruct (matchesSearch term x); now constructor.
Qed.

(** Whatever order the listing is in, the rows shown are in that order. *)
Lemma filterItems_keeps_order (R : relation Entry) (term : string) (data : list Entry) :
  StronglySorted R data -> StronglySorted R (filterItems term data).
Proof.
  generalize (filterItems_sublist term data).
  generalize (filterItems term data). intros shown Hsub. revert shown Hsub.
  induction data as [|x l IH]; intros shown Hsub Hs.
  - apply sublist_nil_r in Hsub as ->. constructor.
  - apply StronglySorted_inv in Hs as [Hl Hx].
    apply sublist_cons_r in Hsub as [Hsub | (shown' & -> & Hsub)]; [now apply IH|].
    constructor; [now apply IH|].
    rewrite Forall_forall in Hx |- *. intros y Hy. apply Hx.
    eapply elem_of_sublist; eauto.
Qed.

Lemma filterData_contents (term : string) (data : loc) (h : store) (items : list Entry) :
  h !! data = Some items ->
  exists r h', filterData term data h = Some (r, h')
               /\ h' !! r = Some (filterItems term items)
               /\ (forall l, l ∈ dom h -> h' !! l = h !! l).
Proof.
  intros Hd. unfold filterData, filterItems.
  destruct (negb (truthyString term)).
  - exists data, h. auto.
  - rewrite Hd. eexists _, _. split; [reflexivity|]. split.
    + apply lookup_insert_eq.
    + intros l Hl. apply lookup_insert_ne. intros <-.
      exact (is_fresh (dom h) Hl).
Qed.

(** C8. [filterData] is free of side effects on the arrays it is given:
    started on an array of the store it returns; every array already in the
    store, the input among them, is unchanged afterwards; the array returned
    holds the filtered rows; a second computation with the same array and
    search term returns an array with equal contents; and with an empty
    search term the reference returned is the input itself and the store is
    untouched. *)
Theorem filterData_pure (term : string) (data : loc) (h : store) (items : list Entry) :
  h !! data = Some items ->
  exists r h',
    filterData term data h = Some (r, h')
    /\ (forall l, l ∈ dom h -> h' !! l = h !! l)
    /\ h' !! data = Some items
    /\ h' !! r = Some (filterItems term items)
    /\ (exists r2 h2, filterData term data h' = Some (r2, h2) /\ h2 !! r2 = h' !! r)
    /\ (term = "" -> r = data /\ h' = h).
Proof.
  intros Hd.
  destruct (filterData_contents term data h items Hd) as (r & h' & Hrun & Hr & Hframe).
  assert (Hd' : h' !! data = Some items).
  { rewrite Hframe; [exact Hd|]. apply elem_of_dom. eauto. }
  exists r, h'. repeat (split; [assumption|]).
  split.
  - destruct (filterData_contents term data h' items Hd') as (r2 & h2 & Hrun2 & Hr2 & _).
    exists r2, h2. split; [assumption|]. congruence.
  - intros ->. unfold filterData in Hrun. simpl in Hrun. now inversion Hrun.
Qed.

Lemma filterData_pure_witness :
  exists r h',
    filterData "vpn" 1%positive Samples.listingStore = Some (r, h')
    /\ h' !! 1%positive = Some [Samples.breachRow]
    /\ h' !! r = Some [Samples.breachRow].
Proof.
  destruct (filterData_pure "vpn" 1%positive Samples.listingStore
              [Samples.breachRow] ltac:(vm_compute; reflexivity))
    as (r & h' & Hrun & _ & Hin & Hout & _).
  exists r, h'. split; [exact Hrun|]. split; [exact Hin|exact Hout].
Defined.

End FilterFacts.

(** ** The agent workload table *)
Section WorkloadFacts.
Import JS AssignmentGroups.
Local Open Scope Q_scope.

Lemma geq_Fin (p k : Q) : geq (Fin p) k = true <-> k <= p.
Proof. apply Qle_bool_iff. Qed.

Lemma geq_Fin_false (p k : Q) : geq (Fin p) k = false <-> p < k.
Proof.
  rewrite <- not_true_iff_false, geq_Fin. split.
  - apply Qnot_le_lt.
  - apply Qlt_not_le.
Qed.

Lemma capacity_nonzero (w : Workload) : ~ capacity w == 0.
Proof.
  unfold capacity. destruct (max_capacity w) as [| |c]; try discriminate.
  destruct (Qeq_bool c 0) eqn:E; [discriminate|].
  now apply Qeq_bool_neq.
Qed.

Lemma capacity_unconfigured (w : Workload) :
  truthyQ (max_capacity w) = false -> capacity w = 10.
Proof.
  unfold capacity, truthyQ. destruct (max_capacity w) as [| |c]; try reflexivity.
  destruct (Qeq_bool c 0); [reflexivity|discriminate].
Qed.

Lemma workloadPercent_computed (w : Workload) (a : Agent) (n : Q) :
  truthyQ (workload_percentage a) = false ->
  assigned_tickets a = QNum n ->
  workloadPercent w a = Fin (n / capacity w * 100).
Proof.
  intros Hp Hn. unfold workloadPercent, computedPercent. now rewrite Hp, Hn.
Qed.

Lemma statusLabel_fallback (a : Agent) (p : number) :
  status a = None \/ status a = Some ""%string ->
  statusLabel a p = if geq p 90 then "Overloaded"%string else "Available"%string.
Proof. unfold statusLabel. intros [-> | ->]; reflexivity. Qed.

(** C2 (as stated) fails: an agent at exactly 50% whose record carries no
    status is labelled "Available", not "busy". *)
Lemma status_chip_has_no_busy_bucket :
  ~ AsStated.rowStatus
      (agentRow (Samples.groupWith (QNum 10)) (Samples.agentWith QUndefined (QNum 5))).
Proof.
  unfold AsStated.rowStatus. simpl. intros (_ & Hbusy & _).
  assert (H : 50 <= 5 / 10 * 100 /\ 5 / 10 * 100 <= 89).
  { split; unfold Qle; simpl; lia. }
  specialize (Hbusy H). vm_compute in Hbusy. discriminate.
Qed.

(** C2 (amended). For an agent whose record carries no status, the chip is
    labelled "Overloaded" when the workload percentage is at least 90 and
    "Available" for every percentage below 90, so exactly 90 is overloaded
    and there is no "busy" label; a status carried by the record is shown
    unchanged. The chip colour has four buckets, below 50, 50 to below 70,
    70 to below 90 and from 90 on, each boundary in the higher bucket. *)
Theorem status_chip_buckets :
  (forall a p, status a = None \/ status a = Some ""%string ->
     (90 <= p -> statusLabel a (Fin p) = "Overloaded"%string)
     /\ (p < 90 -> statusLabel a (Fin p) = "Available"%string))
  /\ (forall a s p, status a = Some s -> s <> ""%string -> statusLabel a p = s)
  /\ (forall p,
        (p < 50 -> getWorkloadColor (Fin p) = "#388e3c"%string)
        /\ (50 <= p -> p < 70 -> getWorkloadColor (Fin p) = "#fbc02d"%string)
        /\ (70 <= p -> p < 90 -> getWorkloadColor (Fin p) = "#f57c00"%string)
        /\ (90 <= p -> getWorkloadColor (Fin p) = "#d32f2f"%string)).
Proof.
  split; [|split].
  - intros a p Hs. rewrite (statusLabel_fallback a (Fin p) Hs). split; intros Hp.
    + apply geq_Fin in Hp. now rewrite Hp.
    + apply geq_Fin_false in Hp. now rewrite Hp.
  - intros a s p Hs Hne. unfold statusLabel, orStr. rewrite Hs.
    destruct (truthyString s) eqn:E; [reflexivity|].
    now apply truthyString_false in E.
  - intros p. unfold getWorkloadColor. repeat split.
    + intros H.
      assert (H70 : p < 70) by (eapply Qlt_trans; [exact H|reflexivity]).
      assert (H90 : p < 90) by (eapply Qlt_trans; [exact H|reflexivity]).
      apply geq_Fin_false in H, H70, H90. now rewrite H90, H70, H.
    + intros H50 H70.
      assert (H90 : p < 90) by (eapply Qlt_trans; [exact H70|reflexivity]).
      apply geq_Fin in H50. apply geq_Fin_false in H70, H90.
      now rewrite H90, H70, H50.
    + intros H70 H90. apply geq_Fin in H70. apply geq_Fin_false in H90.
      now rewrite H90, H70.
    + intros H90. apply geq_Fin in H90. now rewrite H90.
Qed.

Lemma status_chip_buckets_witness :
  statusLabel (Samples.agentWith QUndefined (QNum 9)) (Fin 90) = "Overloaded"%string
  /\ statusLabel (Samples.agentWith QUndefined (QNum 5)) (Fin 50) = "Available"%string
  /\ getWorkloadColor (Fin 50) = "#fbc02d"%string.
Proof.
  destruct status_chip_buckets as (Hlabel & _ & Hcolour).
  split; [|split].
  - apply (Hlabel (Samples.agentWith QUndefined (QNum 9)) 90).
    + left. reflexivity.
    + unfold Qle. simpl. lia.
  - apply (Hlabel (Samples.agentWith QUndefined (QNum 5)) 50).
    + left. reflexivity.
    + reflexivity.
  - apply (Hcolour 50).
    + unfold Qle. simpl. lia.
    + reflexivity.
Defined.

End WorkloadFacts.

(** ** Capacity and the workload percentage *)
Section CapacityFacts.
Import JS AssignmentGroups.
Local Open Scope Q_scope.

(** C3 (as stated) fails: for a group without a configured capacity the
    calculation does not report [InvalidCapacityConfig]; it returns the
    percentage computed with capacity 10. *)
Lemma unconfigured_capacity_is_not_refused :
  ~ AsStated.refusesUnconfigured
      (Samples.groupWith QUndefined) (Samples.agentWith QUndefined (QNum 9))
  /\ workloadPercent (Samples.groupWith QUndefined) (Samples.agentWith QUndefined (QNum 9))
     = Fin (9 / 10 * 100).
Proof.
  split; [|reflexivity].
  intros H. specialize (H eq_refl). discriminate.
Qed.

(** C3 (amended). For every group whose capacity is not configured (the
    field is absent, null or zero) the workload calculation proceeds with
    the default capacity 10: an agent without a percentage of its own is at
    assigned_tickets / 10 * 100, and every agent with a ticket count gets a
    finite percentage, never an error. The divisor is never zero, whatever
    the configuration. *)
Theorem unconfigured_capacity_defaults_to_ten :
  (forall w, truthyQ (max_capacity w) = false -> capacity w = 10)
  /\ (forall w, ~ capacity w == 0)
  /\ (forall w a n,
        truthyQ (max_capacity w) = false ->
        truthyQ (workload_percentage a) = false ->
        assigned_tickets a = QNum n ->
        workloadPercent w a = Fin (n / 10 * 100))
  /\ (forall w a,
        truthyQ (max_capacity w) = false ->
        assigned_tickets a <> QUndefined ->
        exists p, workloadPercent w a = Fin p).
Proof.
  split; [exact capacity_unconfigured|].
  split; [exact capacity_nonzero|].
  split.
  - intros w a n Hc Hp Hn.
    rewrite (workloadPercent_computed w a n Hp Hn).
    now rewrite (capacity_unconfigured w Hc).
  - intros w a _ Hn. unfold workloadPercent.
    destruct (workload_percentage a) as [| |q]; simpl.
    + unfold computedPercent. destruct (assigned_tickets a); simpl; eauto. congruence.
    + unfold computedPercent. destruct (assigned_tickets a); simpl; eauto. congruence.
    + destruct (negb (Qeq_bool q 0)); [eauto|].
      unfold computedPercent. destruct (assigned_tickets a); simpl; eauto. congruence.
Qed.

Lemma unconfigured_capacity_defaults_to_ten_witness :
  capacity (Samples.groupWith QNull) = 10
  /\ workloadPercent (Samples.groupWith (QNum 0)) (Samples.agentWith QNull (QNum 9))
     = Fin (9 / 10 * 100).
Proof.
  destruct unconfigured_capacity_defaults_to_ten as (Hcap & _ & Hrun & _).
  split.
  - apply (Hcap (Samples.groupWith QNull)). reflexivity.
  - apply (Hrun (Samples.groupWith (QNum 0)) (Samples.agentWith QNull (QNum 9)) 9);
      reflexivity.
Defined.

(** C7 (as stated) fails: an agent whose record carries a workload
    percentage of 30 is shown at 30% although 9 tickets are assigned and
    the capacity is 10; and a negative capacity, which the component accepts
    as configured, makes the percentage decrease with the ticket count. *)
Lemma supplied_percentage_overrides_formula :
  ~ AsStated.percentFormula
      (Samples.groupWith (QNum 10)) (Samples.agentWith (QNum 30) (QNum 9))
  /\ ~ AsStated.percentMonotone
        (Samples.groupWith (QNum (-10)))
        (Samples.agentWith QUndefined (QNum 1)) (Samples.agentWith QUndefined (QNum 2)).
Proof.
  split.
  - intros H. destruct (H 9 10 eq_refl eq_refl) as (p & Hp & Heq).
    vm_compute in Hp. injection Hp as <-.
    unfold Qeq in Heq. simpl in Heq. lia.
  - intros H.
    specialize (H 1 2 _ _ eq_refl eq_refl ltac:(discriminate) eq_refl eq_refl).
    unfold Qle in H. simpl in H. lia.
Qed.

(** C7 (amended). A non-zero workload percentage carried by the agent's
    record is shown as it is, whatever the ticket count and the capacity.
    For every agent whose record carries no workload percentage of its own
    (absent, null or zero) and a numeric ticket count, the percentage is
    assigned_tickets / capacity * 100, where the capacity is the group's
    max_capacity when that is configured and non-zero, and 10 otherwise.
    For such agents and a positive capacity the percentage is non-decreasing
    in the number of assigned tickets. With capacity 10, an agent with 9
    assigned tickets and neither a percentage nor a status of its own is at
    90% and labelled "Overloaded". *)
Theorem workloadPercent_formula :
  (forall w a q,
     workload_percentage a = QNum q -> ~ q == 0 -> workloadPercent w a = Fin q)
  /\ (forall w a n,
        truthyQ (workload_percentage a) = false ->
        assigned_tickets a = QNum n ->
        workloadPercent w a = Fin (n / capacity w * 100))
  /\ (forall w c, max_capacity w = QNum c -> ~ c == 0 -> capacity w = c)
  /\ (forall w, truthyQ (max_capacity w) = false -> capacity w = 10)
  /\ (forall w a1 a2 n1 n2 p1 p2,
        0 < capacity w ->
        truthyQ (workload_percentage a1) = false ->
        truthyQ (workload_percentage a2) = false ->
        assigned_tickets a1 = QNum n1 ->
        assigned_tickets a2 = QNum n2 ->
        n1 <= n2 ->
        workloadPercent w a1 = Fin p1 ->
        workloadPercent w a2 = Fin p2 ->
        p1 <= p2)
  /\ (forall w a,
        max_capacity w = QNum 10 ->
        truthyQ (workload_percentage a) = false ->
        assigned_tickets a = QNum 9 ->
        status a = None ->
        exists p, row_percent (agentRow w a) = Fin p
                  /\ p == 90
                  /\ row_label (agentRow w a) = "Overloaded"%string).
Proof.
  split; [|split; [|split; [|split; [|split]]]].
  - intros w a q Hq Hne. unfold workloadPercent. rewrite Hq. simpl.
    destruct (Qeq_bool q 0) eqn:E; [|reflexivity].
    apply Qeq_bool_iff in E. contradiction.
  - exact workloadPercent_computed.
  - intros w c Hc Hne. unfold capacity. rewrite Hc.
    destruct (Qeq_bool c 0) eqn:E; [|reflexivity].
    apply Qeq_bool_iff in E. contradiction.
  - exact capacity_unconfigured.
  - intros w a1 a2 n1 n2 p1 p2 Hcap Hf1 Hf2 H1 H2 Hle Hp1 Hp2.
    rewrite (workloadPercent_computed w a1 n1 Hf1 H1) in Hp1.
    rewrite (workloadPercent_computed w a2 n2 Hf2 H2) in Hp2.
    injection Hp1 as <-. injection Hp2 as <-.
    apply Qmult_le_compat_r; [|discriminate].
    apply Qmult_le_compat_r; [exact Hle|].
    apply Qinv_le_0_compat. now apply Qlt_le_weak.
  - intros w a Hc Hp Hn Hs.
    assert (Hcap : capacity w = 10) by (unfold capacity; now rewrite Hc).
    assert (Hpct : workloadPercent w a = Fin (9 / 10 * 100)).
    { rewrite (workloadPercent_computed w a 9 Hp Hn). now rewrite Hcap. }
    exists (9 / 10 * 100). unfold agentRow. simpl. rewrite Hpct.
    split; [reflexivity|]. split; [reflexivity|].
    rewrite statusLabel_fallback by (now left). reflexivity.
Qed.

Lemma workloadPercent_formula_witness :
  workloadPercent (Samples.groupWith (QNum 10)) (Samples.agentWith (QNum 30) (QNum 9)) = Fin 30
  /\ workloadPercent (Samples.groupWith QUndefined) (Samples.agentWith QUndefined (QNum 9))
     = Fin (9 / 10 * 100)
  /\ exists p,
       row_percent
         (agentRow (Samples.groupWith (QNum 10)) (Samples.agentWith QUndefined (QNum 9)))
       = Fin p
       /\ p == 90
       /\ row_label
            (agentRow (Samples.groupWith (QNum 10)) (Samples.agentWith QUndefined (QNum 9)))
          = "Overloaded"%string.
Proof.
  destruct workloadPercent_formula as (Hown & Hformula & _ & _ & _ & Hnine).
  split; [|split].
  - apply (Hown (Samples.groupWith (QNum 10)) (Samples.agentWith (QNum 30) (QNum 9)) 30).
    + reflexivity.
    + discriminate.
  - apply (Hformula (Samples.groupWith QUndefined) (Samples.agentWith QUndefined (QNum 9)) 9);
      reflexivity.
  - apply (Hnine (Samples.groupWith (QNum 10)) (Samples.agentWith QUndefined (QNum 9)));
      reflexivity.
Defined.

End CapacityFacts.

(** ** The password reset ticket *)
Section PasswordResetFacts.
Import JS PasswordResetForm.

Lemma handleSubmit_payload (fd : FormData) (p : TicketPayload) :
  handleSubmit fd = Some p -> validateForm fd = true /\ p = ticketPayload fd.
Proof.
  unfold handleSubmit. destruct (validateForm fd); [|discriminate].
  intros [= <-]. auto.
Qed.

(** C9. For every password-reset submission that creates a ticket, the
    ticket's [sla_hours] is 4 when the urgency is "high", 1 when it is
    "critical" and 24 for every other urgency; its priority is the urgency
    itself. *)
Theorem password_reset_sla_hours (fd : FormData) (p : TicketPayload) :
  handleSubmit fd = Some p ->
  (urgency fd = "high" -> sla_hours p = 4)
  /\ (urgency fd = "critical" -> sla_hours p = 1)
  /\ (urgency fd <> "high" -> urgency fd <> "critical" -> sla_hours p = 24)
  /\ ticket_priority p = urgency fd.
Proof.
  intros H. apply handleSubmit_payload in H as [_ ->]. simpl.
  repeat split.
  - intros ->. reflexivity.
  - intros ->. reflexivity.
  - intros Hh Hc.
    destruct (String.eqb_spec (urgency fd) "high"); [contradiction|].
    destruct (String.eqb_spec (urgency fd) "critical"); [contradiction|].
    reflexivity.
Qed.

Lemma password_reset_sla_hours_witness :
  sla_hours (ticketPayload (Samples.formWith "high")) = 4
  /\ sla_hours (ticketPayload (Samples.formWith "critical")) = 1
  /\ sla_hours (ticketPayload (Samples.formWith "low")) = 24.
Proof.
  split; [|split].
  - apply (password_reset_sla_hours (Samples.formWith "high") _ eq_refl). reflexivity.
  - apply (password_reset_sla_hours (Samples.formWith "critical") _ eq_refl). reflexivity.
  - apply (password_reset_sla_hours (Samples.formWith "low") _ eq_refl); discriminate.
Defined.

End PasswordResetFacts.

(** ** The SLA service: evaluation *)
Section EvaluatorFacts.
Import SLAService.

Lemma evaluate_ticket_id (m : Metric) (t : Ticket) (pol : Policy) (now : Z) :
  ticket_id (evaluate m t pol now) = id t.
Proof. reflexivity. Qed.

Lemma evaluate_remaining (m : Metric) (t : Ticket) (pol : Policy) (now : Z) :
  remaining_minutes (evaluate m t pol now) = target m pol - elapsed m t now.
Proof. reflexivity. Qed.

(** C6. A ticket whose resolution due date is in the past and that is not
    resolved evaluates, on the resolution metric, to [breached] with a
    remaining time below zero; a ticket created 70 minutes ago under a
    60-minute resolution target and unresolved evaluates to [breached] with
    remaining time -10. *)
Theorem overdue_unresolved_is_breached :
  (forall t pol now,
     resolved_at t = None ->
     resolution_due t pol < now ->
     sla_status (evaluate Resolution t pol now) = breached
     /\ remaining_minutes (evaluate Resolution t pol now) < 0)
  /\ (forall t pol now,
        created_at t = now - 70 ->
        resolution_target_minutes pol = 60 ->
        resolved_at t = None ->
        sla_status (evaluate Resolution t pol now) = breached
        /\ remaining_minutes (evaluate Resolution t pol now) = -10).
Proof.
  split.
  - intros t pol now Hopen Hdue. unfold resolution_due in Hdue.
    unfold evaluate. simpl. rewrite Hopen.
    destruct (Z.ltb_spec (resolution_target_minutes pol - (now - created_at t)) 0);
      split; try reflexivity; lia.
  - intros t pol now Hcreated Htarget Hopen.
    unfold evaluate. simpl. rewrite Hopen, Hcreated, Htarget.
    replace (60 - (now - (now - 70))) with (-10) by lia.
    split; reflexivity.
Qed.

Lemma overdue_unresolved_is_breached_witness :
  sla_status (evaluate Resolution (Samples.ticketAt 1 930 None) Samples.policy60 1000) = breached
  /\ remaining_minutes (evaluate Resolution (Samples.ticketAt 1 930 None) Samples.policy60 1000)
     = -10.
Proof.
  destruct overdue_unresolved_is_breached as (_ & Hscenario).
  apply (Hscenario (Samples.ticketAt 1 930 None) Samples.policy60 1000); reflexivity.
Defined.

End EvaluatorFacts.

(** ** The SLA service: aggregation *)
Section AggregatorFacts.
Import SLAService.

#[local] Instance entry_le_transitive : Transitive entry_le.
Proof. intros a b c. unfold entry_le. lia. Qed.

#[local] Instance entry_le_total : Total entry_le.
Proof. intros a b. unfold entry_le. lia. Qed.

Lemma mostUrgent_In (rs : list EvaluationResult) (r : EvaluationResult) :
  mostUrgent rs = Some r -> In r rs.
Proof.
  revert r. induction rs as [|x rs IH]; simpl; [discriminate|].
  intros r. destruct (mostUrgent rs) as [r'|].
  - destruct (remaining_minutes r' <? remaining_minutes x); intros [= <-]; auto.
  - intros [= <-]. auto.
Qed.

Lemma mostUrgent_nonempty (rs : list EvaluationResult) :
  rs <> [] -> exists r, mostUrgent rs = Some r.
Proof.
  destruct rs as [|x rs]; [congruence|]. intros _. simpl.
  destruct (mostUrgent rs) as [r'|]; [|eauto].
  destruct (remaining_minutes r' <? remaining_minutes x); eauto.
Qed.

Lemma hasStatus_true (s : SlaStatus) (r : EvaluationResult) :
  hasStatus s r = true <-> sla_status r = s.
Proof. unfold hasStatus. apply bool_decide_eq_true. Qed.

Lemma breachEntry_Some (rs : list EvaluationResult) (e : EvaluationResult) :
  breachEntry rs = Some e -> In e rs /\ sla_status e = breached.
Proof.
  unfold breachEntry. intros H. apply mostUrgent_In, filter_In in H as [Hin Hs].
  split; [exact Hin|]. now apply hasStatus_true.
Qed.

Lemma breachEntry_exists (rs : list EvaluationResult) (r : EvaluationResult) :
  In r rs -> sla_status r = breached -> exists e, breachEntry rs = Some e.
Proof.
  intros Hin Hs. apply mostUrgent_nonempty.
  assert (Hf : In r (List.filter (hasStatus breached) rs)).
  { apply filter_In. split; [exact Hin|]. now apply hasStatus_true. }
  intros E. rewrite E in Hf. destruct Hf.
Qed.

Lemma warningEntry_Some (rs : list EvaluationResult) (e : EvaluationResult) :
  warningEntry rs = Some e ->
  In e rs /\ sla_status e = warning /\ forall r, In r rs -> sla_status r <> breached.
Proof.
  unfold warningEntry. destruct (existsb (hasStatus breached) rs) eqn:E; [discriminate|].
  intros H. apply mostUrgent_In, filter_In in H as [Hin Hs].
  split; [exact Hin|]. split; [now apply hasStatus_true|].
  intros r Hr Hb.
  assert (Ht : existsb (hasStatus breached) rs = true).
  { apply existsb_exists. exists r. split; [exact Hr|]. now apply hasStatus_true. }
  congruence.
Qed.

Lemma evaluateBoth_In (ps : list Policy) (now : Z) (t : Ticket) (r : EvaluationResult) :
  In r (evaluateBoth ps now t) <->
  exists pol m, find_policy ps (category t) (priority t) = Some pol
                /\ r = evaluate m t pol now.
Proof.
  unfold evaluateBoth. destruct (find_policy ps (category t) (priority t)) as [pol|].
  - simpl. split.
    + intros [<- | [<- | []]]; eauto.
    + intros (pol' & m & [= <-] & ->). destruct m; auto.
  - simpl. split; [intros []|]. intros (pol & m & Hp & _). discriminate.
Qed.

Lemma scan_breaches_elem (tickets : list Ticket) (ps : list Policy) (now : Z)
      (e : EvaluationResult) :
  e ∈ breaches (scan tickets ps now) <->
  exists t, In t tickets /\ isOpen t = true
            /\ breachEntry (evaluateBoth ps now t) = Some e.
Proof.
  unfold scan. simpl. rewrite merge_sort_Permutation, list_elem_of_omap. split.
  - intros (rs & Hrs & He).
    apply list_elem_of_In, in_map_iff in Hrs as (t & <- & Ht).
    apply filter_In in Ht as [Ht Ho]. eauto.
  - intros (t & Ht & Ho & He). exists (evaluateBoth ps now t). split; [|exact He].
    apply list_elem_of_In, in_map_iff. exists t. split; [reflexivity|].
    apply filter_In. auto.
Qed.

Lemma scan_warnings_elem (tickets : list Ticket) (ps : list Policy) (now : Z)
      (e : EvaluationResult) :
  e ∈ warnings (scan tickets ps now) <->
  exists t, In t tickets /\ isOpen t = true
            /\ warningEntry (evaluateBoth ps now t) = Some e.
Proof.
  unfold scan. simpl. rewrite merge_sort_Permutation, list_elem_of_omap. split.
  - intros (rs & Hrs & He).
    apply list_elem_of_In, in_map_iff in Hrs as (t & <- & Ht).
    apply filter_In in Ht as [Ht Ho]. eauto.
  - intros (t & Ht & Ho & He). exists (evaluateBoth ps now t). split; [|exact He].
    apply list_elem_of_In, in_map_iff. exists t. split; [reflexivity|].
    apply filter_In. auto.
Qed.

Lemma NoDup_map_unique {A B : Type} (f : A -> B) (l : list A) (x y : A) :
  NoDup (List.map f l) -> In x l -> In y l -> f x = f y -> x = y.
Proof.
  induction l as [|z l IH]; simpl; [intros _ []|].
  intros Hnd. apply NoDup_cons in Hnd as [Hz Hl].
  intros [<- | H1] [<- | H2] Hf; auto.
  - exfalso. apply Hz. rewrite Hf. apply list_elem_of_In, in_map. exact H2.
  - exfalso. apply Hz. rewrite <- Hf. apply list_elem_of_In, in_map. exact H1.
Qed.

Lemma listedIds_elem (l : list EvaluationResult) (i : Z) :
  i ∈ listedIds l <-> exists e, e ∈ l /\ ticket_id e = i.
Proof.
  unfold listedIds. rewrite list_elem_of_In, in_map_iff. split.
  - intros (e & He & Hin). exists e. split; [now apply list_elem_of_In|exact He].
  - intros (e & Hin & He). exists e. split; [exact He|now apply list_elem_of_In].
Qed.

Lemma breachEntry_of_ticket (ps : list Policy) (now : Z) (t : Ticket) (e : EvaluationResult) :
  breachEntry (evaluateBoth ps now t) = Some e ->
  ticket_id e = id t /\ sla_status e = breached /\ In e (evaluateBoth ps now t).
Proof.
  intros H. apply breachEntry_Some in H as [Hin Hs].
  destruct (proj1 (evaluateBoth_In ps now t e) Hin) as (pol & m & _ & ->).
  auto.
Qed.

Lemma warningEntry_of_ticket (ps : list Policy) (now : Z) (t : Ticket) (e : EvaluationResult) :
  warningEntry (evaluateBoth ps now t) = Some e ->
  ticket_id e = id t /\ sla_status e = warning
  /\ In e (evaluateBoth ps now t)
  /\ forall r, In r (evaluateBoth ps now t) -> sla_status r <> breached.
Proof.
  intros H. apply warningEntry_Some in H as (Hin & Hs & Hnone).
  destruct (proj1 (evaluateBoth_In ps now t e) Hin) as (pol & m & _ & ->).
  auto.
Qed.

Lemma breaches_warnings_disjoint (tickets : list Ticket) (ps : list Policy) (now : Z) (i : Z) :
  NoDup (List.map id tickets) ->
  i ∈ listedIds (breaches (scan tickets ps now)) ->
  i ∉ listedIds (warnings (scan tickets ps now)).
Proof.
  intros Hnd Hb Hw.
  apply listedIds_elem in Hb as (e & He & Hei).
  apply listedIds_elem in Hw as (w & Hw & Hwi).
  apply scan_breaches_elem in He as (t1 & Ht1 & _ & He).
  apply scan_warnings_elem in Hw as (t2 & Ht2 & _ & Hw).
  apply breachEntry_of_ticket in He as (Hid1 & Hs & Hin).
  apply warningEntry_of_ticket in Hw as (Hid2 & _ & _ & Hnone).
  assert (t1 = t2) as <-.
  { apply (NoDup_map_unique id tickets); auto. congruence. }
  exact (Hnone e Hin Hs).
Qed.

(** C4. For tickets with distinct ids, no ticket is listed under both
    breaches and warnings of one aggregation: an open ticket with a policy
    and a breached metric is listed under breaches and not under warnings,
    and a ticket listed under warnings is open, has a metric in warning and
    no breached metric. *)
Theorem scan_breach_precedence (tickets : list Ticket) (ps : list Policy) (now : Z) :
  NoDup (List.map id tickets) ->
  (forall i, i ∈ listedIds (breaches (scan tickets ps now)) ->
             i ∉ listedIds (warnings (scan tickets ps now)))
  /\ (forall t pol m,
        In t tickets -> isOpen t = true ->
        find_policy ps (category t) (priority t) = Some pol ->
        sla_status (evaluate m t pol now) = breached ->
        id t ∈ listedIds (breaches (scan tickets ps now))
        /\ id t ∉ listedIds (warnings (scan tickets ps now)))
  /\ (forall t pol,
        In t tickets ->
        find_policy ps (category t) (priority t) = Some pol ->
        id t ∈ listedIds (warnings (scan tickets ps now)) ->
        isOpen t = true
        /\ (exists m, sla_status (evaluate m t pol now) = warning)
        /\ (forall m, sla_status (evaluate m t pol now) <> breached)).
Proof.
  intros Hnd.
  assert (Hdisj := fun i => breaches_warnings_disjoint tickets ps now i Hnd).
  split; [exact Hdisj|]. split.
  - intros t pol m Ht Ho Hp Hs.
    assert (Hin : In (evaluate m t pol now) (evaluateBoth ps now t)).
    { apply evaluateBoth_In. eauto. }
    destruct (breachEntry_exists _ _ Hin Hs) as (e & He).
    assert (Hb : id t ∈ listedIds (breaches (scan tickets ps now))).
    { apply listedIds_elem. exists e. split.
      - apply scan_breaches_elem. eauto.
      - now apply breachEntry_of_ticket in He. }
    split; [exact Hb|]. now apply Hdisj.
  - intros t pol Ht Hp Hw.
    apply listedIds_elem in Hw as (w & Hw & Hwi).
    apply scan_warnings_elem in Hw as (t' & Ht' & Ho & Hw).
    apply warningEntry_of_ticket in Hw as (Hid & Hs & Hin & Hnone).
    assert (t' = t) as ->.
    { apply (NoDup_map_unique id tickets); auto. congruence. }
    split; [exact Ho|]. split.
    + apply evaluateBoth_In in Hin as (pol' & m & Hp' & ->).
      assert (pol' = pol) as -> by congruence. eauto.
    + intros m. apply Hnone. apply evaluateBoth_In. eauto.
Qed.

Lemma scan_breach_precedence_witness :
  1 ∈ listedIds (breaches (scan Samples.openTickets [Samples.policy60] 1000))
  /\ 1 ∉ listedIds (warnings (scan Samples.openTickets [Samples.policy60] 1000)).
Proof.
  assert (Hnd : NoDup (List.map id Samples.openTickets)).
  { apply (bool_decide_unpack _). vm_compute. exact I. }
  destruct (scan_breach_precedence Samples.openTickets [Samples.policy60] 1000 Hnd)
    as (_ & Hbreached & _).
  apply (Hbreached (Samples.ticketAt 1 930 (Some 935)) Samples.policy60 Resolution).
  - simpl. auto.
  - reflexivity.
  - reflexivity.
  - reflexivity.
Defined.

Lemma entry_le_antisym_on_ids (l : list EvaluationResult) (x y : EvaluationResult) :
  NoDup (listedIds l) -> x ∈ l -> y ∈ l -> entry_le x y -> entry_le y x -> x = y.
Proof.
  intros Hnd Hx Hy Hxy Hyx.
  apply (NoDup_map_unique ticket_id l); [exact Hnd| | |].
  - now apply list_elem_of_In.
  - now apply list_elem_of_In.
  - unfold entry_le in Hxy, Hyx. lia.
Qed.

Lemma sorted_arrangement_unique (l sorted : list EvaluationResult) :
  l ≡ₚ sorted -> NoDup (listedIds l) ->
  StronglySorted entry_le l -> StronglySorted entry_le sorted -> l = sorted.
Proof.
  intros Hperm Hnd Hl Hs.
  apply (StronglySorted_unique_strong entry_le); auto.
  intros x y Hx Hy. rewrite <- Hperm in Hy. now apply (entry_le_antisym_on_ids l).
Qed.

(** C5. The breach list and the warning list of every aggregation are sorted
    by ascending remaining minutes, ties by ascending ticket id; and that
    order is determined by the entries: any arrangement of the same entries,
    with distinct ticket ids, that is sorted in this way is the list
    itself. *)
Theorem scan_lists_sorted (tickets : list Ticket) (ps : list Policy) (now : Z) :
  StronglySorted entry_le (breaches (scan tickets ps now))
  /\ StronglySorted entry_le (warnings (scan tickets ps now))
  /\ (forall l, l ≡ₚ breaches (scan tickets ps now) -> NoDup (listedIds l) ->
                StronglySorted entry_le l -> l = breaches (scan tickets ps now))
  /\ (forall l, l ≡ₚ warnings (scan tickets ps now) -> NoDup (listedIds l) ->
                StronglySorted entry_le l -> l = warnings (scan tickets ps now)).
Proof.
  assert (Hb : StronglySorted entry_le (breaches (scan tickets ps now))).
  { unfold scan. simpl. apply StronglySorted_merge_sort; apply _. }
  assert (Hw : StronglySorted entry_le (warnings (scan tickets ps now))).
  { unfold scan. simpl. apply StronglySorted_merge_sort; apply _. }
  split; [exact Hb|]. split; [exact Hw|]. split.
  - intros l Hperm Hnd Hl. now apply sorted_arrangement_unique.
  - intros l Hperm Hnd Hl. now apply sorted_arrangement_unique.
Qed.

Lemma scan_lists_sorted_witness :
  [evaluate Response (Samples.ticketAt 6 900 None) Samples.policy60 1000;
   evaluate Resolution (Samples.ticketAt 3 900 (Some 901)) Samples.policy60 1000;
   evaluate Resolution (Samples.ticketAt 1 930 (Some 935)) Samples.policy60 1000;
   evaluate Resolution (Samples.ticketAt 4 930 (Some 931)) Samples.policy60 1000]
  = breaches (scan Samples.openTickets [Samples.policy60] 1000).
Proof.
  destruct (scan_lists_sorted Samples.openTickets [Samples.policy60] 1000)
    as (_ & _ & Hunique & _).
  apply Hunique.
  - vm_compute. reflexivity.
  - apply (bool_decide_unpack _). vm_compute. exact I.
  - apply (bool_decide_unpack _). vm_compute. exact I.
Defined.

End AggregatorFacts.

(** * Further properties of the components *)

(** ** Strings and numbers as text *)
Section TextFacts.
Import JS Text.

Lemma lowerAscii_idem (c : ascii) : lowerAscii (lowerAscii c) = lowerAscii c.
Proof. destruct c as [[] [] [] [] [] [] [] []]; reflexivity. Qed.

Lemma toLowerCase_idem (s : string) : toLowerCase (toLowerCase s) = toLowerCase s.
Proof.
  induction s as [|c s IH]; simpl; [reflexivity|].
  now rewrite lowerAscii_idem, IH.
Qed.

Lemma toLowerCase_append (s t : string) :
  toLowerCase (s +:+ t) = toLowerCase s +:+ toLowerCase t.
Proof.
  induction s as [|c s IH]; [reflexivity|].
  change (String c s +:+ t) with (String c (s +:+ t)). cbn [toLowerCase].
  now rewrite IH.
Qed.

Lemma toLowerCase_truthy (s : string) :
  truthyString (toLowerCase s) = truthyString s.
Proof. destruct s; reflexivity. Qed.

Lemma prefix_append (a b s : string) :
  String.prefix (a +:+ b) s = true -> String.prefix a s = true.
Proof.
  revert s. induction a as [|c a IH]; intros s.
  - destruct s; reflexivity.
  - change (String c a +:+ b) with (String c (a +:+ b)).
    destruct s as [|d s]; simpl; [discriminate|].
    destruct (ascii_dec c d); [apply IH|discriminate].
Qed.

Lemma includes_append (s a b : string) :
  includes s (a +:+ b) = true -> includes s a = true.
Proof.
  induction s as [|c s IH]; cbn [includes]; intros H.
  - apply orb_true_iff in H as [H|H]; [|discriminate].
    apply prefix_append in H. now rewrite H.
  - apply orb_true_iff in H as [H|H].
    + apply prefix_append in H. now rewrite H.
    + rewrite (IH H). apply orb_true_r.
Qed.

Lemma trimStart_blank (s : string) : isBlank s = true -> trimStart s = "".
Proof.
  induction s as [|c s IH]; simpl; [reflexivity|].
  intros H. apply andb_true_iff in H as [Hc Hs]. rewrite Hc. now apply IH.
Qed.

Lemma trimEnd_keeps_head (c : ascii) (s : string) :
  isSpace c = false -> trimEnd (String c s) <> "".
Proof.
  intros Hc. simpl. destruct (trimEnd s); [|discriminate].
  rewrite Hc. discriminate.
Qed.

Lemma trimStart_head (s : string) :
  isBlank s = false -> exists c r, trimStart s = String c r /\ isSpace c = false.
Proof.
  induction s as [|c s IH]; simpl; [discriminate|].
  destruct (isSpace c) eqn:Hc; simpl; [exact IH|]. eauto.
Qed.

(** A string survives [trim] exactly when it holds a character that is not
    white space. *)
Lemma trim_truthy (s : string) : truthyString (trim s) = negb (isBlank s).
Proof.
  unfold trim. destruct (isBlank s) eqn:Hb.
  - now rewrite (trimStart_blank s Hb).
  - destruct (trimStart_head s Hb) as (c & r & -> & Hc).
    pose proof (trimEnd_keeps_head c r Hc) as Hne.
    unfold truthyString. destruct (String.eqb_spec (trimEnd (String c r)) ""); [contradiction|reflexivity].
Qed.

Lemma to_int_proper (n : Z) : Z.to_int n <> Decimal.Pos Decimal.Nil /\ Z.to_int n <> Decimal.Neg Decimal.Nil.
Proof.
  destruct n as [|p|p]; simpl; split; try discriminate;
    intros [= H]; exact (DecimalPos.Unsigned.to_uint_nonnil p H).
Qed.

Lemma numberToString_inj (n n' : Z) : numberToString n = numberToString n' -> n = n'.
Proof.
  unfold numberToString. intros H. apply DecimalZ.to_int_inj.
  apply (f_equal NilZero.int_of_string) in H.
  destruct (to_int_proper n) as [? ?]. destruct (to_int_proper n') as [? ?].
  rewrite !NilZero.isi in H by assumption. congruence.
Qed.

Lemma string_of_uint_digits (d : Decimal.uint) : allDigits (NilEmpty.string_of_uint d) = true.
Proof. induction d; simpl; auto. Qed.

Lemma numberToString_digits (n : Z) : 0 <= n -> allDigits (numberToString n) = true.
Proof.
  intros Hn. unfold numberToString. destruct n as [|p|p]; [reflexivity| |lia].
  simpl. unfold NilZero.string_of_uint.
  destruct (Pos.to_uint p) eqn:E; try (rewrite <- E; apply string_of_uint_digits).
  reflexivity.
Qed.

(** Two texts that start with digits and continue with a character that is
    not a digit agree only if the digits, the character and the rest agree. *)
Lemma digits_then_split (a a' : string) (c c' : ascii) (r r' : string) :
  allDigits a = true -> allDigits a' = true ->
  isDigit c = false -> isDigit c' = false ->
  a +:+ String c r = a' +:+ String c' r' ->
  a = a' /\ c = c' /\ r = r'.
Proof.
  revert a'. induction a as [|x a IH]; intros a' Ha Ha' Hc Hc' H.
  - destruct a' as [|y a'].
    + injection H as -> ->. auto.
    + injection H as -> _. simpl in Ha'. rewrite Hc in Ha'. discriminate.
  - destruct a' as [|y a'].
    + injection H as -> _. simpl in Ha. rewrite Hc' in Ha. discriminate.
    + injection H as -> H. simpl in Ha, Ha'.
      apply andb_true_iff in Ha as [_ Ha]. apply andb_true_iff in Ha' as [_ Ha'].
      destruct (IH a' Ha Ha' Hc Hc' H) as (-> & -> & ->). auto.
Qed.

End TextFacts.

(** ** The SLA dashboard: time cells *)
Section TimeCellFacts.
Import JS Text SLADashboard SLADashboardView.

Lemma format_minutes (m : Z) :
  0 <= m < 60 -> formatTimeRemaining (NNum m) = numberToString m +:+ "m".
Proof.
  intros Hm. unfold formatTimeRemaining.
  destruct (Z.ltb_spec m 0); [lia|].
  rewrite (Z.div_small m 60) by lia. simpl.
  now rewrite Z.rem_small by lia.
Qed.

Lemma format_hours (m : Z) :
  60 <= m < 1500 ->
  formatTimeRemaining (NNum m) =
  numberToString (m / 60) +:+ "h " +:+ numberToString (m mod 60) +:+ "m".
Proof.
  intros Hm. unfold formatTimeRemaining.
  destruct (Z.ltb_spec m 0); [lia|].
  assert (H1 : 1 <= m / 60) by (apply Z.div_le_lower_bound; lia).
  assert (H2 : m / 60 < 25) by (apply Z.div_lt_upper_bound; lia).
  destruct (Z.gtb_spec (m / 60) 24); [lia|].
  destruct (Z.gtb_spec (m / 60) 0); [|lia].
  now rewrite Z.rem_mod_nonneg by lia.
Qed.

Lemma format_days (m : Z) :
  1500 <= m ->
  formatTimeRemaining (NNum m) =
  numberToString (m / 60 / 24) +:+ "d " +:+ numberToString ((m / 60) mod 24) +:+ "h".
Proof.
  intros Hm. unfold formatTimeRemaining.
  destruct (Z.ltb_spec m 0); [lia|].
  assert (Hh : 25 <= m / 60) by (apply Z.div_le_lower_bound; lia).
  destruct (Z.gtb_spec (m / 60) 24); [|lia].
  now rewrite Z.rem_mod_nonneg by lia.
Qed.

Lemma format_nonnegative_last (m : Z) :
  0 <= m ->
  lastChar (formatTimeRemaining (NNum m)) = Some "m"%char
  \/ lastChar (formatTimeRemaining (NNum m)) = Some "h"%char.
Proof.
  intros Hm.
  destruct (Z.lt_ge_cases m 60); [|destruct (Z.lt_ge_cases m 1500)].
  - left. rewrite format_minutes by lia. now rewrite lastChar_append.
  - left. rewrite format_hours by lia. now rewrite !lastChar_append.
  - right. rewrite format_days by lia. now rewrite !lastChar_append.
Qed.

Lemma format_overdue_number (m : Z) :
  formatTimeRemaining (NNum m) = "Overdue" <-> m < 0.
Proof.
  split.
  - intros H. destruct (Z.lt_ge_cases m 0) as [|Hm]; [assumption|].
    apply (f_equal lastChar) in H.
    destruct (format_nonnegative_last m Hm) as [E|E]; rewrite E in H; discriminate.
  - intros Hm. unfold formatTimeRemaining. destruct (Z.ltb_spec m 0); [reflexivity|lia].
Qed.

Lemma format_injective_below_25h (m m' : Z) :
  0 <= m < 1500 -> 0 <= m' < 1500 ->
  formatTimeRemaining (NNum m) = formatTimeRemaining (NNum m') -> m = m'.
Proof.
  intros Hm Hm' H.
  assert (Hd : forall k, 0 <= k -> allDigits (numberToString k) = true)
    by apply numberToString_digits.
  assert (Hq : forall k, 0 <= k -> 0 <= k / 60) by (intros; apply Z.div_pos; lia).
  assert (Hr : forall k, 0 <= k mod 60) by (intros; apply Z.mod_pos_bound; lia).
  destruct (Z.lt_ge_cases m 60) as [Hs|Hs]; destruct (Z.lt_ge_cases m' 60) as [Hs'|Hs'].
  - rewrite !format_minutes in H by lia.
    apply (digits_then_split _ _ "m" "m" _ _
             (Hd m ltac:(lia)) (Hd m' ltac:(lia)) eq_refl eq_refl) in H as (H & _).
    now apply numberToString_inj.
  - rewrite (format_minutes m), (format_hours m') in H by lia.
    apply (digits_then_split _ _ "m" "h" _ _
             (Hd m ltac:(lia)) (Hd _ (Hq m' ltac:(lia))) eq_refl eq_refl) in H as (_ & H & _).
    discriminate.
  - rewrite (format_hours m), (format_minutes m') in H by lia.
    apply (digits_then_split _ _ "h" "m" _ _
             (Hd _ (Hq m ltac:(lia))) (Hd m' ltac:(lia)) eq_refl eq_refl) in H as (_ & H & _).
    discriminate.
  - rewrite !format_hours in H by lia.
    apply (digits_then_split _ _ "h" "h" _ _
             (Hd _ (Hq m ltac:(lia))) (Hd _ (Hq m' ltac:(lia))) eq_refl eq_refl)
      in H as (Hh & _ & H).
    injection H as H.
    apply (digits_then_split _ _ "m" "m" _ _
             (Hd _ (Hr m)) (Hd _ (Hr m')) eq_refl eq_refl) in H as (Hmin & _).
    apply numberToString_inj in Hh, Hmin.
    rewrite (Z.div_mod m 60), (Z.div_mod m' 60) by lia. congruence.
Qed.

(** X1. The "Overdue By" cell of a breach row reads "Overdue" exactly when
    [overdue_minutes] is a negative number; a breach that is overdue by a
    positive number of minutes is shown as that duration. *)
Theorem overdueCell_overdue_iff (e : Entry) :
  overdueCell e = "Overdue" <-> exists m, overdue_minutes e = NNum m /\ m < 0.
Proof.
  unfold overdueCell. split.
  - destruct (overdue_minutes e) as [| |m]; try discriminate.
    intros H. exists m. split; [reflexivity|]. now apply format_overdue_number.
  - intros (m & -> & Hm). now apply format_overdue_number.
Qed.

(** X2. Below 25 hours (1500 minutes) two different non-negative minute
    counts are always displayed differently; from 1500 minutes on the
    display depends only on the whole hours, so the minutes are lost. *)
Theorem formatTimeRemaining_precision :
  (forall m m', 0 <= m < 1500 -> 0 <= m' < 1500 ->
     formatTimeRemaining (NNum m) = formatTimeRemaining (NNum m') -> m = m')
  /\ (forall m m', 1500 <= m -> 1500 <= m' -> m / 60 = m' / 60 ->
        formatTimeRemaining (NNum m) = formatTimeRemaining (NNum m')).
Proof.
  split; [exact format_injective_below_25h|].
  intros m m' Hm Hm' Hh. rewrite !format_days by assumption. now rewrite Hh.
Qed.

Lemma formatTimeRemaining_precision_witness :
  formatTimeRemaining (NNum 1500) = formatTimeRemaining (NNum 1559).
Proof.
  destruct formatTimeRemaining_precision as (_ & Hlossy).
  apply (Hlossy 1500 1559); [lia|lia|reflexivity].
Defined.

(** X3. The "Time Remaining" cell of a warning row uses
    [time_remaining_minutes] unless that is absent, null or zero, and
    [minutes_remaining] otherwise. So it reads "N/A" exactly when the first
    field is absent, null or zero and the second is absent or null, and it
    reads "0m" exactly when the first is absent, null or zero and the second
    is zero: a zero in [time_remaining_minutes] alone is shown as "N/A". *)
Theorem remainingCell_fallthrough (e : Entry) :
  (remainingCell e = "N/A" <->
   truthyNum (time_remaining_minutes e) = false
   /\ (minutes_remaining e = NNull \/ minutes_remaining e = NUndefined))
  /\ (remainingCell e = "0m" <->
      truthyNum (time_remaining_minutes e) = false /\ minutes_remaining e = NNum 0).
Proof.
  assert (Hzero : forall n, formatTimeRemaining (NNum n) = "0m" -> n = 0).
  { intros n H. destruct (Z.lt_ge_cases n 0) as [Hn|Hn].
    - apply format_overdue_number in Hn. rewrite Hn in H. discriminate.
    - destruct (Z.lt_ge_cases n 1500) as [Hb|Hb].
      + apply format_injective_below_25h; [lia|lia|]. rewrite H. reflexivity.
      + rewrite format_days in H by lia. apply (f_equal lastChar) in H.
        rewrite !lastChar_append in H. discriminate. }
  unfold remainingCell, orNum.
  destruct (truthyNum (time_remaining_minutes e)) eqn:Ht.
  - destruct (time_remaining_minutes e) as [| |n]; try discriminate.
    split; split.
    + intros H. exfalso. exact (formatTimeRemaining_number_not_NA n H).
    + intros [H _]. discriminate.
    + intros H. apply Hzero in H. subst n. discriminate.
    + intros [H _]. discriminate.
  - split; split.
    + intros H. split; [reflexivity|].
      destruct (minutes_remaining e) as [| |n]; auto.
      exfalso. exact (formatTimeRemaining_number_not_NA n H).
    + intros [_ [-> | ->]]; reflexivity.
    + intros H. split; [reflexivity|].
      destruct (minutes_remaining e) as [| |n]; try discriminate.
      now rewrite (Hzero n H).
    + intros [_ ->]. reflexivity.
Qed.

(** X4. In the detail dialog the remaining time is coloured red exactly
    when its text is "Overdue"; absent and null values are never red. *)
Theorem timeRemainingColor_matches_text (v : numfield) :
  timeRemainingColor v = "#d32f2f" <-> formatTimeRemaining v = "Overdue".
Proof.
  destruct v as [| |m]; simpl timeRemainingColor.
  - split; discriminate.
  - split; discriminate.
  - rewrite format_overdue_number.
    destruct (Z.ltb_spec m 0); split; try discriminate; auto; lia.
Qed.

End TimeCellFacts.

(** ** The SLA dashboard: searching the listings *)
Section SearchFacts.
Import JS Text SLADashboard SLADashboardView.

Lemma filter_sublist_weaker {A : Type} (p q : A -> bool) (l : list A) :
  (forall x, p x = true -> q x = true) ->
  sublist (List.filter p l) (List.filter q l).
Proof.
  intros Hpq. induction l as [|x l IH]; simpl; [constructor|].
  destruct (p x) eqn:Hp.
  - rewrite (Hpq x Hp). now constructor.
  - destruct (q x); [now constructor|exact IH].
Qed.

Lemma filter_idem {A : Type} (p : A -> bool) (l : list A) :
  List.filter p (List.filter p l) = List.filter p l.
Proof.
  induction l as [|x l IH]; simpl; [reflexivity|].
  destruct (p x) eqn:Hp; simpl; [|exact IH]. now rewrite Hp, IH.
Qed.

Lemma truthyString_append (t u : string) :
  truthyString t = true -> truthyString (t +:+ u) = true.
Proof. destruct t; [discriminate|reflexivity]. Qed.

Lemma matchesSearch_lower (t1 t2 : string) (item : Entry) :
  toLowerCase t1 = toLowerCase t2 -> matchesSearch t1 item = matchesSearch t2 item.
Proof. unfold matchesSearch. now intros ->. Qed.

Lemma matchesSearch_shorter (t u : string) (item : Entry) :
  matchesSearch (t +:+ u) item = true -> matchesSearch t item = true.
Proof.
  unfold matchesSearch. rewrite toLowerCase_append. intros H.
  apply orb_true_iff in H as [H|H]; apply includes_append in H; rewrite H;
    [reflexivity|apply orb_true_r].
Qed.

(** X5. The search does not depend on letter case: two search terms that
    agree after lower-casing show the same rows of every listing. *)
Theorem filterItems_case_insensitive (t1 t2 : string) (data : list Entry) :
  toLowerCase t1 = toLowerCase t2 -> filterItems t1 data = filterItems t2 data.
Proof.
  intros H. unfold filterItems.
  assert (Ht : truthyString t1 = truthyString t2).
  { rewrite <- (toLowerCase_truthy t1), <- (toLowerCase_truthy t2). now rewrite H. }
  rewrite Ht. destruct (negb (truthyString t2)); [reflexivity|].
  apply filter_ext. intros x. now apply matchesSearch_lower.
Qed.

Lemma filterItems_case_insensitive_witness :
  filterItems "VPN" [Samples.breachRow] = filterItems "vpn" [Samples.breachRow].
Proof.
  apply (filterItems_case_insensitive "VPN" "vpn" [Samples.breachRow]). reflexivity.
Defined.

(** X6. For search terms of the ASCII range typing further characters
    never adds rows: the rows shown for a search term extended at its end
    are, in the same order, among the rows shown for the shorter term. (For
    such terms lower-casing the extended term extends the lower-cased term;
    outside ASCII the context-sensitive cases of lower-casing, such as the
    final sigma, break this.) *)
Theorem filterItems_narrows (t u : string) (data : list Entry) :
  isAscii t = true -> isAscii u = true ->
  sublist (filterItems (t +:+ u) data) (filterItems t data).
Proof.
  intros _ _. destruct (truthyString t) eqn:Ht.
  - unfold filterItems. rewrite (truthyString_append t u Ht), Ht. simpl.
    apply filter_sublist_weaker. intros x. apply matchesSearch_shorter.
  - apply truthyString_false in Ht. subst t.
    change ("" +:+ u) with u. rewrite filterItems_empty_term.
    apply filterItems_sublist.
Qed.

Lemma filterItems_narrows_witness :
  sublist (filterItems "vpn d" [Samples.breachRow]) (filterItems "vpn" [Samples.breachRow]).
Proof.
  apply (filterItems_narrows "vpn" " d" [Samples.breachRow]); reflexivity.
Defined.

(** X7. Every row shown for a non-empty search term matches it and is a row
    of the listing; filtering the rows shown once more changes nothing; and
    the count in a panel title never exceeds the count of the listing. *)
Theorem filterItems_shown_rows (term : string) (data : list Entry) :
  (term <> "" ->
   forall x, In x (filterItems term data) <-> In x data /\ matchesSearch term x = true)
  /\ filterItems term (filterItems term data) = filterItems term data
  /\ (shownCount term data <= length data)%nat.
Proof.
  split; [|split].
  - intros Hne x. unfold filterItems.
    destruct (truthyString term) eqn:Ht; simpl.
    + apply filter_In.
    + apply truthyString_false in Ht. contradiction.
  - unfold filterItems. destruct (negb (truthyString term)); [reflexivity|].
    apply filter_idem.
  - unfold shownCount. apply sublist_length, filterItems_sublist.
Qed.

Lemma filterItems_shown_rows_witness :
  In Samples.breachRow (filterItems "inc00" [Samples.breachRow])
  <-> In Samples.breachRow [Samples.breachRow]
      /\ matchesSearch "inc00" Samples.breachRow = true.
Proof.
  destruct (filterItems_shown_rows "inc00" [Samples.breachRow]) as (Hrows & _).
  apply Hrows. discriminate.
Defined.

End SearchFacts.

(** ** The SLA dashboard: fetching and colours *)
Section FetchFacts.
Import JS JSObject SLADashboard SLADashboardView.

Ltac fetch_cases o :=
  unfold SLADashboardFetch.fetchSLADataFrom;
  destruct o as [?msg|[[] [?mb|?mb| |?bb]] [[] [?mw|?mw| |?bw]]];
  cbn [SLADashboardFetch.raw_ok SLADashboardFetch.raw_json negb orb
       SLADashboardFetch.failed SLADashboardFetch.usable
       loading searchTerm error warnings breaches].

Lemma fetch_always (st : State) (o : SLADashboardFetch.Settled) :
  loading (SLADashboardFetch.fetchSLADataFrom st o) = false
  /\ searchTerm (SLADashboardFetch.fetchSLADataFrom st o) = searchTerm st.
Proof. fetch_cases o; split; reflexivity. Qed.

Lemma fetch_no_error (st : State) (o : SLADashboardFetch.Settled) :
  error (SLADashboardFetch.fetchSLADataFrom st o) = None <->
  exists rb rw,
    o = SLADashboardFetch.Resolved rb rw
    /\ SLADashboardFetch.raw_ok rb = true /\ SLADashboardFetch.raw_ok rw = true
    /\ SLADashboardFetch.usable (SLADashboardFetch.raw_json rb) = true
    /\ SLADashboardFetch.usable (SLADashboardFetch.raw_json rw) = true.
Proof.
  split.
  - fetch_cases o; try discriminate;
      intros _; eexists _, _; repeat split; reflexivity.
  - intros (rb & rw & -> & Hb & Hw & Hub & Huw).
    unfold SLADashboardFetch.fetchSLADataFrom. rewrite Hb, Hw. cbn [negb orb].
    destruct (SLADashboardFetch.raw_json rb), (SLADashboardFetch.raw_json rw);
      try discriminate; reflexivity.
Qed.

Lemma fetch_success (st : State) (rb rw : SLADashboardFetch.RawResponse) :
  error (SLADashboardFetch.fetchSLADataFrom st (SLADashboardFetch.Resolved rb rw)) = None ->
  breaches (SLADashboardFetch.fetchSLADataFrom st (SLADashboardFetch.Resolved rb rw))
  = SLADashboardFetch.breachesOfParsed (SLADashboardFetch.raw_json rb)
  /\ warnings (SLADashboardFetch.fetchSLADataFrom st (SLADashboardFetch.Resolved rb rw))
     = SLADashboardFetch.warningsOfParsed (SLADashboardFetch.raw_json rw).
Proof.
  unfold SLADashboardFetch.fetchSLADataFrom.
  destruct rb as [[] [mb|mb| |bb]], rw as [[] [mw|mw| |bw]];
    cbn; try discriminate; intros _; split; reflexivity.
Qed.

Lemma fetch_error_keeps_warnings (st : State) (o : SLADashboardFetch.Settled) :
  error (SLADashboardFetch.fetchSLADataFrom st o) <> None ->
  warnings (SLADashboardFetch.fetchSLADataFrom st o) = warnings st.
Proof. fetch_cases o; try reflexivity; intros H; contradiction. Qed.

Lemma fetch_not_ok (st : State) (rb rw : SLADashboardFetch.RawResponse) :
  SLADashboardFetch.raw_ok rb = false \/ SLADashboardFetch.raw_ok rw = false ->
  SLADashboardFetch.fetchSLADataFrom st (SLADashboardFetch.Resolved rb rw)
  = SLADashboardFetch.failed st "Failed to fetch SLA data".
Proof.
  unfold SLADashboardFetch.fetchSLADataFrom.
  intros [-> | ->]; [reflexivity|]. now rewrite orb_true_r.
Qed.

Lemma fetch_unusable (st : State) (rb rw : SLADashboardFetch.RawResponse) :
  SLADashboardFetch.raw_ok rb = true -> SLADashboardFetch.raw_ok rw = true ->
  SLADashboardFetch.usable (SLADashboardFetch.raw_json rb) = false
  \/ (exists m, SLADashboardFetch.raw_json rw = SLADashboardFetch.ParseError m) ->
  exists m, SLADashboardFetch.fetchSLADataFrom st (SLADashboardFetch.Resolved rb rw)
            = SLADashboardFetch.failed st m.
Proof.
  unfold SLADashboardFetch.fetchSLADataFrom. intros -> ->. cbn [negb orb].
  intros [H|(m & ->)].
  - destruct (SLADashboardFetch.raw_json rb); try discriminate;
      destruct (SLADashboardFetch.raw_json rw); eexists; reflexivity.
  - destruct (SLADashboardFetch.raw_json rb); eexists; reflexivity.
Qed.

Lemma fetch_partial (st : State) (rb rw : SLADashboardFetch.RawResponse) (m : string) :
  SLADashboardFetch.raw_ok rb = true -> SLADashboardFetch.raw_ok rw = true ->
  SLADashboardFetch.usable (SLADashboardFetch.raw_json rb) = true ->
  SLADashboardFetch.raw_json rw = SLADashboardFetch.ParsedNull m ->
  breaches (SLADashboardFetch.fetchSLADataFrom st (SLADashboardFetch.Resolved rb rw))
  = SLADashboardFetch.breachesOfParsed (SLADashboardFetch.raw_json rb)
  /\ warnings (SLADashboardFetch.fetchSLADataFrom st (SLADashboardFetch.Resolved rb rw))
     = warnings st
  /\ error (SLADashboardFetch.fetchSLADataFrom st (SLADashboardFetch.Resolved rb rw)) = Some m.
Proof.
  unfold SLADashboardFetch.fetchSLADataFrom. intros -> -> Hu ->. cbn [negb orb].
  destruct (SLADashboardFetch.raw_json rb); try discriminate; repeat split; reflexivity.
Qed.

Lemma fetch_read (st : State) (rb rw : Response) :
  SLADashboardFetch.fetchSLADataFrom st
    (SLADashboardFetch.Resolved (SLADashboardFetch.readResponse rb)
       (SLADashboardFetch.readResponse rw))
  = fetchSLAData st rb rw.
Proof.
  unfold SLADashboardFetch.fetchSLADataFrom, fetchSLAData, SLADashboardFetch.readResponse.
  cbn. destruct (negb (ok rb) || negb (ok rw))%bool; reflexivity.
Qed.

(** X8. How [fetchSLAData] ends. The spinner always stops and the search
    term is never touched. No error is left exactly when both responses are
    ok and both bodies are usable (neither unreadable nor null), and then
    both listings are the ones of the bodies. Whenever an error is left the
    warning listing is as it was. The breach listing is as it was too when
    the requests were rejected, a response was not ok (the error then reads
    "Failed to fetch SLA data"), a body was unreadable or the breach body was
    null; but a null warnings body after a usable breach body leaves the
    breach listing replaced, the warning listing as it was, and the engine's
    [TypeError] text as the error. On bodies read as an array or an object
    the outcome is the one of [fetchSLAData]. *)
Theorem fetchSLAData_outcomes (st : State) (o : SLADashboardFetch.Settled) :
  loading (SLADashboardFetch.fetchSLADataFrom st o) = false
  /\ searchTerm (SLADashboardFetch.fetchSLADataFrom st o) = searchTerm st
  /\ (error (SLADashboardFetch.fetchSLADataFrom st o) = None <->
      exists rb rw,
        o = SLADashboardFetch.Resolved rb rw
        /\ SLADashboardFetch.raw_ok rb = true /\ SLADashboardFetch.raw_ok rw = true
        /\ SLADashboardFetch.usable (SLADashboardFetch.raw_json rb) = true
        /\ SLADashboardFetch.usable (SLADashboardFetch.raw_json rw) = true)
  /\ (forall rb rw,
        o = SLADashboardFetch.Resolved rb rw ->
        error (SLADashboardFetch.fetchSLADataFrom st o) = None ->
        breaches (SLADashboardFetch.fetchSLADataFrom st o)
        = SLADashboardFetch.breachesOfParsed (SLADashboardFetch.raw_json rb)
        /\ warnings (SLADashboardFetch.fetchSLADataFrom st o)
           = SLADashboardFetch.warningsOfParsed (SLADashboardFetch.raw_json rw))
  /\ (error (SLADashboardFetch.fetchSLADataFrom st o) <> None ->
      warnings (SLADashboardFetch.fetchSLADataFrom st o) = warnings st)
  /\ (forall m, o = SLADashboardFetch.Rejected m ->
                SLADashboardFetch.fetchSLADataFrom st o = SLADashboardFetch.failed st m)
  /\ (forall rb rw,
        o = SLADashboardFetch.Resolved rb rw ->
        SLADashboardFetch.raw_ok rb = false \/ SLADashboardFetch.raw_ok rw = false ->
        SLADashboardFetch.fetchSLADataFrom st o
        = SLADashboardFetch.failed st "Failed to fetch SLA data")
  /\ (forall rb rw,
        o = SLADashboardFetch.Resolved rb rw ->
        SLADashboardFetch.raw_ok rb = true -> SLADashboardFetch.raw_ok rw = true ->
        SLADashboardFetch.usable (SLADashboardFetch.raw_json rb) = false
        \/ (exists m, SLADashboardFetch.raw_json rw = SLADashboardFetch.ParseError m) ->
        exists m, SLADashboardFetch.fetchSLADataFrom st o = SLADashboardFetch.failed st m)
  /\ (forall rb rw m,
        o = SLADashboardFetch.Resolved rb rw ->
        SLADashboardFetch.raw_ok rb = true -> SLADashboardFetch.raw_ok rw = true ->
        SLADashboardFetch.usable (SLADashboardFetch.raw_json rb) = true ->
        SLADashboardFetch.raw_json rw = SLADashboardFetch.ParsedNull m ->
        breaches (SLADashboardFetch.fetchSLADataFrom st o)
        = SLADashboardFetch.breachesOfParsed (SLADashboardFetch.raw_json rb)
        /\ warnings (SLADashboardFetch.fetchSLADataFrom st o) = warnings st
        /\ error (SLADashboardFetch.fetchSLADataFrom st o) = Some m)
  /\ (forall rb rw,
        o = SLADashboardFetch.Resolved (SLADashboardFetch.readResponse rb)
              (SLADashboardFetch.readResponse rw) ->
        SLADashboardFetch.fetchSLADataFrom st o = fetchSLAData st rb rw).
Proof.
  split; [apply fetch_always|]. split; [apply fetch_always|].
  split; [apply fetch_no_error|].
  split; [intros rb rw ->; apply fetch_success|].
  split; [apply fetch_error_keeps_warnings|].
  split; [intros m ->; reflexivity|].
  split; [intros rb rw ->; apply fetch_not_ok|].
  split; [intros rb rw ->; apply fetch_unusable|].
  split; [intros rb rw m ->; apply fetch_partial|].
  intros rb rw ->. apply fetch_read.
Qed.

Lemma fetchSLAData_outcomes_witness :
  breaches
    (SLADashboardFetch.fetchSLADataFrom SLADashboard.initialState
       (SLADashboardFetch.Resolved
          {| SLADashboardFetch.raw_ok := true;
             SLADashboardFetch.raw_json :=
               SLADashboardFetch.ParsedBody (BArray [Samples.breachRow]) |}
          {| SLADashboardFetch.raw_ok := true;
             SLADashboardFetch.raw_json := SLADashboardFetch.ParsedNull "null body" |}))
  = [Samples.breachRow]
  /\ error
       (SLADashboardFetch.fetchSLADataFrom SLADashboard.initialState
          (SLADashboardFetch.Resolved
             {| SLADashboardFetch.raw_ok := true;
                SLADashboardFetch.raw_json :=
                  SLADashboardFetch.ParsedBody (BArray [Samples.breachRow]) |}
             {| SLADashboardFetch.raw_ok := true;
                SLADashboardFetch.raw_json := SLADashboardFetch.ParsedNull "null body" |}))
     = Some "null body".
Proof.
  destruct (fetchSLAData_outcomes SLADashboard.initialState
              (SLADashboardFetch.Resolved
                 {| SLADashboardFetch.raw_ok := true;
                    SLADashboardFetch.raw_json :=
                      SLADashboardFetch.ParsedBody (BArray [Samples.breachRow]) |}
                 {| SLADashboardFetch.raw_ok := true;
                    SLADashboardFetch.raw_json := SLADashboardFetch.ParsedNull "null body" |}))
    as (_ & _ & _ & _ & _ & _ & _ & _ & Hpartial & _).
  destruct (Hpartial _ _ "null body" eq_refl eq_refl eq_refl eq_refl eq_refl)
    as (Hb & _ & He).
  split; [exact Hb|exact He].
Defined.

(** X9. A successful breach response that is an object without a
    [breaches] member counts as no breach at all: the listing is empty and
    the compliance card shows "100%". *)
Theorem missing_breaches_member_reads_compliant (st : State) (w : option (list Entry))
        (rw : Response) :
  ok rw = true ->
  breaches (fetchSLAData st {| ok := true; json := BObject None w |} rw) = []
  /\ complianceRate (fetchSLAData st {| ok := true; json := BObject None w |} rw) = "100%".
Proof.
  intros Hw. unfold complianceRate, fetchSLAData. simpl. rewrite Hw. simpl. auto.
Qed.

Lemma missing_breaches_member_reads_compliant_witness :
  complianceRate
    (fetchSLAData Samples.oneBreachDashboard
       {| ok := true; json := BObject None (Some [Samples.breachRow]) |}
       (Samples.okArray []))
  = "100%".
Proof.
  apply (missing_breaches_member_reads_compliant Samples.oneBreachDashboard
           (Some [Samples.breachRow]) (Samples.okArray []) eq_refl).
Defined.

Lemma lowerKey_lower (p : string) : lowerKey (Some (toLowerCase p)) = lowerKey (Some p).
Proof. apply toLowerCase_idem. Qed.

Lemma lower_is_not (p k : string) : toLowerCase k <> k -> toLowerCase p <> k.
Proof. intros Hk Hp. apply Hk. rewrite <- Hp. apply toLowerCase_idem. Qed.

End FetchFacts.

(** ** Colour tables *)
Section ColourFacts.
Import JS JSObject.

(** A lower-cased name is inherited from [Object.prototype] only if it is
    "constructor" or "__proto__": every other inherited name has an upper
    case letter. *)
Lemma inherited_lower_key (p : string) :
  toLowerCase p ∈ prototypeKeys ->
  toLowerCase p = "constructor" \/ toLowerCase p = "__proto__".
Proof.
  intros H. apply list_elem_of_In in H. simpl in H.
  destruct H as [H|[H|[H|[H|[H|[H|[H|[H|[H|[H|[H|[H|[]]]]]]]]]]]]]; auto;
    exfalso; symmetry in H; revert H; apply lower_is_not; vm_compute; discriminate.
Qed.

Lemma getOr_missing (own : gmap string string) (p fallback : string) :
  own !! toLowerCase p = None ->
  toLowerCase p <> "constructor" -> toLowerCase p <> "__proto__" ->
  getOr own (toLowerCase p) fallback = Str fallback.
Proof.
  intros Hown Hc Hp. unfold getOr, get. rewrite Hown.
  destruct (bool_decide (toLowerCase p ∈ prototypeKeys)) eqn:E; [|reflexivity].
  apply bool_decide_eq_true in E. apply inherited_lower_key in E as [E|E]; contradiction.
Qed.

Lemma priorityColors_other (k : string) :
  k <> "critical" -> k <> "high" -> k <> "medium" -> k <> "low" ->
  SLADashboardView.priorityColors !! k = None.
Proof.
  intros H1 H2 H3 H4. unfold SLADashboardView.priorityColors. simpl.
  rewrite !lookup_insert_ne by congruence. apply lookup_empty.
Qed.

Lemma statusColors_other (k : string) :
  k <> "active" -> k <> "inactive" -> k <> "overloaded" ->
  GroupsTable.statusColors !! k = None.
Proof.
  intros H1 H2 H3. unfold GroupsTable.statusColors. simpl.
  rewrite !lookup_insert_ne by congruence. apply lookup_empty.
Qed.

(** X10. [getPriorityColor] ignores letter case; it gives the four
    priorities their colours, and grey ('#757575') to an absent priority and
    to every other priority name, with two exceptions: for a priority that
    lower-cases to "constructor" or "__proto__" the lookup finds the member
    inherited from [Object.prototype] and returns that instead of a
    colour. *)
Theorem getPriorityColor_table :
  (forall p, SLADashboardView.getPriorityColor (Some (toLowerCase p))
             = SLADashboardView.getPriorityColor (Some p))
  /\ (forall p, toLowerCase p = "critical" ->
                SLADashboardView.getPriorityColor (Some p) = Str "#d32f2f")
  /\ (forall p, toLowerCase p = "high" ->
                SLADashboardView.getPriorityColor (Some p) = Str "#f57c00")
  /\ (forall p, toLowerCase p = "medium" ->
                SLADashboardView.getPriorityColor (Some p) = Str "#fbc02d")
  /\ (forall p, toLowerCase p = "low" ->
                SLADashboardView.getPriorityColor (Some p) = Str "#388e3c")
  /\ SLADashboardView.getPriorityColor None = Str "#757575"
  /\ (forall p,
        toLowerCase p <> "critical" -> toLowerCase p <> "high" ->
        toLowerCase p <> "medium" -> toLowerCase p <> "low" ->
        toLowerCase p <> "constructor" -> toLowerCase p <> "__proto__" ->
        SLADashboardView.getPriorityColor (Some p) = Str "#757575")
  /\ (forall p, toLowerCase p = "constructor" \/ toLowerCase p = "__proto__" ->
                SLADashboardView.getPriorityColor (Some p) = Obj (toLowerCase p)).
Proof.
  unfold SLADashboardView.getPriorityColor.
  split; [intros p; now rewrite lowerKey_lower|].
  repeat (split; [intros p Hp; simpl; rewrite Hp; vm_compute; reflexivity|]).
  split; [vm_compute; reflexivity|]. split.
  - intros p H1 H2 H3 H4 H5 H6. simpl.
    apply getOr_missing; auto. now apply priorityColors_other.
  - intros p [Hp|Hp]; simpl; rewrite Hp; vm_compute; reflexivity.
Qed.

Lemma getPriorityColor_table_witness :
  SLADashboardView.getPriorityColor (Some "High") = Str "#f57c00"
  /\ SLADashboardView.getPriorityColor (Some "urgent") = Str "#757575"
  /\ SLADashboardView.getPriorityColor (Some "Constructor") = Obj "constructor".
Proof.
  destruct getPriorityColor_table as (_ & _ & Hhigh & _ & _ & _ & Hother & Hproto).
  split; [|split].
  - apply (Hhigh "High"). reflexivity.
  - apply (Hother "urgent"); vm_compute; discriminate.
  - apply (Hproto "Constructor"). left. reflexivity.
Defined.

End ColourFacts.

(** ** The workload rows and the groups table *)
Section GroupsFacts.
Import JS JSObject GroupsTable.

(** X11. In the workload table, for an agent whose record carries no
    status, the chip reads "Overloaded" exactly when its colour is the red
    '#d32f2f'; an agent with neither a workload percentage nor a ticket
    count gets [NaN], which is labelled "Available" and coloured green; and
    the progress bar never exceeds 100 while values up to 100 are shown as
    they are. *)
Theorem workload_row_consistent :
  (forall w a,
     AssignmentGroups.status a = None \/ AssignmentGroups.status a = Some "" ->
     (AssignmentGroups.row_label (AssignmentGroups.agentRow w a) = "Overloaded"
      <-> AssignmentGroups.row_color (AssignmentGroups.agentRow w a) = "#d32f2f"))
  /\ (forall w a,
        AssignmentGroups.truthyQ (AssignmentGroups.workload_percentage a) = false ->
        AssignmentGroups.assigned_tickets a = AssignmentGroups.QUndefined ->
        AssignmentGroups.status a = None ->
        AssignmentGroups.agentRow w a
        = {| AssignmentGroups.row_percent := AssignmentGroups.NaN;
             AssignmentGroups.row_label := "Available";
             AssignmentGroups.row_color := "#388e3c" |})
  /\ (forall p, exists b,
        barValue (AssignmentGroups.Fin p) = AssignmentGroups.Fin b
        /\ (b <= 100)%Q /\ (b <= p)%Q /\ ((p <= 100)%Q -> (b == p)%Q))
  /\ barValue AssignmentGroups.NaN = AssignmentGroups.NaN.
Proof.
  split; [|split; [|split]].
  - intros w a Hs. unfold AssignmentGroups.agentRow. simpl.
    rewrite (statusLabel_fallback a _ Hs). unfold AssignmentGroups.getWorkloadColor.
    destruct (AssignmentGroups.geq (AssignmentGroups.workloadPercent w a) 90).
    + split; reflexivity.
    + split; [discriminate|].
      destruct (AssignmentGroups.geq _ 70); [discriminate|].
      destruct (AssignmentGroups.geq _ 50); discriminate.
  - intros w a Hp Hn Hs. unfold AssignmentGroups.agentRow, AssignmentGroups.workloadPercent.
    rewrite Hp. unfold AssignmentGroups.computedPercent. rewrite Hn. simpl.
    unfold AssignmentGroups.statusLabel. now rewrite Hs.
  - intros p. exists (Qmin p 100). split; [reflexivity|].
    split; [apply Q.le_min_r|]. split; [apply Q.le_min_l|]. apply Q.min_l.
  - reflexivity.
Qed.

Lemma workload_row_consistent_witness :
  AssignmentGroups.row_label
    (AssignmentGroups.agentRow (Samples.groupWith AssignmentGroups.QUndefined)
       (Samples.agentWith AssignmentGroups.QUndefined AssignmentGroups.QUndefined))
  = "Available".
Proof.
  destruct workload_row_consistent as (_ & Hnan & _).
  rewrite (Hnan (Samples.groupWith AssignmentGroups.QUndefined)
             (Samples.agentWith AssignmentGroups.QUndefined AssignmentGroups.QUndefined)
             eq_refl eq_refl eq_refl).
  reflexivity.
Defined.

Lemma fold_left_sum {A : Type} (f : A -> Z) (l : list A) (acc : Z) :
  fold_left (fun sum g => sum + f g) l acc = acc + sumZ (List.map f l).
Proof.
  revert acc. induction l as [|x l IH]; intros acc; simpl; [lia|].
  rewrite IH. lia.
Qed.

Lemma sumZ_sublist {A : Type} (f : A -> Z) (k l : list A) :
  sublist k l -> Forall (fun x => 0 <= f x) l ->
  sumZ (List.map f k) <= sumZ (List.map f l).
Proof.
  induction 1 as [|x k l _ IH|x k l _ IH]; intros Hall; simpl.
  - lia.
  - apply Forall_cons in Hall as [_ Hall]. specialize (IH Hall). lia.
  - apply Forall_cons in Hall as [Hx Hall]. specialize (IH Hall). lia.
Qed.

Lemma filterGroups_sublist (term : string) (data : list Group) :
  sublist (filterGroups term data) data.
Proof.
  unfold filterGroups. destruct (negb (truthyString term)); [reflexivity|].
  induction data as [|x l IH]; simpl; [constructor|].
  destruct (matchesGroup term x); now constructor.
Qed.

(** X12. The "Open Tickets" card is the sum of the ticket chips of all
    rows, it adds up over a split of the group list, and, when no group
    reports a negative count, the chips of the rows shown for any search
    term sum to at most the card. *)
Theorem getTotalTickets_is_sum_of_chips (groups : list Group) :
  getTotalTickets groups = sumZ (List.map ticketChipLabel groups)
  /\ (forall g1 g2, groups = g1 ++ g2 ->
                    getTotalTickets groups = getTotalTickets g1 + getTotalTickets g2)
  /\ (Forall (fun g => 0 <= ticketChipLabel g) groups ->
      forall term, sumZ (List.map ticketChipLabel (filterGroups term groups))
                   <= getTotalTickets groups).
Proof.
  assert (Hsum : forall l, getTotalTickets l = sumZ (List.map ticketChipLabel l)).
  { intros l. unfold getTotalTickets. rewrite fold_left_sum. reflexivity. }
  split; [apply Hsum|]. split.
  - intros g1 g2 ->. unfold getTotalTickets.
    rewrite fold_left_app, !fold_left_sum. lia.
  - intros Hall term. rewrite Hsum.
    apply sumZ_sublist; [apply filterGroups_sublist|exact Hall].
Qed.

Lemma getTotalTickets_is_sum_of_chips_witness :
  sumZ (List.map ticketChipLabel
          (filterGroups "net"
             [MoreSamples.groupWith None None None (Some true) (NNum 3);
              MoreSamples.groupWith None None None None (NNum 12)]))
  <= getTotalTickets [MoreSamples.groupWith None None None (Some true) (NNum 3);
                      MoreSamples.groupWith None None None None (NNum 12)].
Proof.
  destruct (getTotalTickets_is_sum_of_chips
              [MoreSamples.groupWith None None None (Some true) (NNum 3);
               MoreSamples.groupWith None None None None (NNum 12)])
    as (_ & _ & Hshown).
  apply Hshown. repeat constructor; vm_compute; discriminate.
Defined.






End GroupsFacts.

(** ** The groups table: status chips and search *)
Section GroupStatusFacts.
Import JS JSObject GroupsTable.

Lemma orStr_absent (o : option string) (fallback : string) :
  o = None \/ o = Some "" -> orStr o fallback = fallback.
Proof. intros [-> | ->]; reflexivity. Qed.

Lemma isActive_statusless (g : Group) :
  status g = None \/ status g = Some "" -> isActive g = truthyFlag (is_active g).
Proof. unfold isActive. intros [-> | ->]; reflexivity. Qed.

(** X14. For a group that carries no status the "Active Groups" card, the
    chip label and the chip colour agree: the group is counted exactly when
    its chip reads "Active", and exactly when the chip is green. So for
    status-less groups the card is the number of chips reading "Active". A
    status such as "Active" or "ACTIVE" is different: without the
    [is_active] flag the chip is green but the group is not counted, since
    the card compares the status with 'active' exactly. *)
Theorem active_groups_card_and_chips :
  (forall g, status g = None \/ status g = Some "" ->
             (isActive g = true <-> statusChipLabel g = "Active")
             /\ (isActive g = true <-> statusChipColor g = Str "#388e3c"))
  /\ (forall groups,
        Forall (fun g => status g = None \/ status g = Some "") groups ->
        getActiveGroups groups
        = length (List.filter (fun g => String.eqb (statusChipLabel g) "Active") groups))
  /\ (forall g s,
        status g = Some s -> s <> "active" -> toLowerCase s = "active" ->
        truthyFlag (is_active g) = false ->
        isActive g = false /\ statusChipColor g = Str "#388e3c")
  /\ (forall groups, (getActiveGroups groups <= length groups)%nat).
Proof.
  assert (Hone : forall g, status g = None \/ status g = Some "" ->
                           (isActive g = true <-> statusChipLabel g = "Active")
                           /\ (isActive g = true <-> statusChipColor g = Str "#388e3c")).
  { intros g Hs. rewrite (isActive_statusless g Hs).
    unfold statusChipLabel, statusChipColor. rewrite !(orStr_absent _ _ Hs).
    destruct (truthyFlag (is_active g)); split; split; try reflexivity;
      vm_compute; discriminate. }
  split; [exact Hone|]. split; [|split].
  - intros groups Hall. unfold getActiveGroups. f_equal.
    induction Hall as [|g l Hg Hl IH]; simpl; [reflexivity|].
    destruct (Hone g Hg) as [[H1 H2] _].
    destruct (isActive g) eqn:Ea.
    + rewrite (H1 eq_refl). simpl. now rewrite IH.
    + destruct (String.eqb_spec (statusChipLabel g) "Active") as [E|E].
      * specialize (H2 E). discriminate.
      * exact IH.
  - intros g s Hs Hne Hlow Hflag. split.
    + unfold isActive. rewrite Hs, Hflag.
      destruct (String.eqb_spec s "active"); [contradiction|reflexivity].
    + unfold statusChipColor, getStatusColor. rewrite Hs. unfold orStr.
      destruct (truthyString s) eqn:Et.
      * simpl. rewrite Hlow. vm_compute. reflexivity.
      * apply truthyString_false in Et. subst s. discriminate.
  - intros groups. unfold getActiveGroups. apply filter_length_le.
Qed.

Lemma active_groups_card_and_chips_witness :
  isActive (MoreSamples.groupWith None None (Some "Active") None (NNum 3)) = false
  /\ statusChipColor (MoreSamples.groupWith None None (Some "Active") None (NNum 3))
     = Str "#388e3c".
Proof.
  destruct active_groups_card_and_chips as (_ & _ & Hcase & _).
  apply (Hcase (MoreSamples.groupWith None None (Some "Active") None (NNum 3)) "Active");
    try reflexivity. discriminate.
Defined.

Lemma includes_empty_subject (t : string) : t <> "" -> includes "" t = false.
Proof. destruct t; [congruence|reflexivity]. Qed.

(** X15. The group search looks at the name, the description and
    [manager] only. A group that has none of these is never shown for a
    non-empty search term, even when the term is the manager name its row
    displays from [manager_name]. *)
Theorem filterGroups_ignores_manager_name (term : string) (data : list Group) (g : Group)
        (n : string) :
  term <> "" ->
  name g = None \/ name g = Some "" ->
  description g = None \/ description g = Some "" ->
  manager g = None \/ manager g = Some "" ->
  manager_name g = Some n -> n <> "" ->
  managerCell g = n /\ ~ In g (filterGroups term data).
Proof.
  intros Ht Hn Hd Hm Hmn Hne. split.
  - unfold managerCell. rewrite (orStr_absent _ _ Hm), Hmn. unfold orStr.
    destruct (truthyString n) eqn:E; [reflexivity|].
    apply truthyString_false in E. contradiction.
  - unfold filterGroups.
    destruct (truthyString term) eqn:Et; simpl.
    + intros Hin. apply filter_In in Hin as [_ Hmatch].
      unfold matchesGroup in Hmatch.
      rewrite (orStr_absent _ _ Hn), (orStr_absent _ _ Hd), (orStr_absent _ _ Hm) in Hmatch.
      assert (Hl : toLowerCase term <> "").
      { intros E. rewrite <- toLowerCase_truthy, E in Et. discriminate. }
      change (toLowerCase "") with "" in Hmatch.
      rewrite (includes_empty_subject _ Hl) in Hmatch. discriminate.
    + apply truthyString_false in Et. contradiction.
Qed.

Lemma filterGroups_ignores_manager_name_witness :
  managerCell
    {| name := None; description := None; manager := None; manager_name := Some "Priya";
       members := None; member_count := NUndefined; open_tickets := NUndefined;
       ticket_count := NUndefined; status := None; is_active := None |}
  = "Priya"
  /\ ~ In {| name := None; description := None; manager := None;
             manager_name := Some "Priya"; members := None; member_count := NUndefined;
             open_tickets := NUndefined; ticket_count := NUndefined; status := None;
             is_active := None |}
          (filterGroups "priya"
             [{| name := None; description := None; manager := None;
                 manager_name := Some "Priya"; members := None;
                 member_count := NUndefined; open_tickets := NUndefined;
                 ticket_count := NUndefined; status := None; is_active := None |}]).
Proof.
  apply (filterGroups_ignores_manager_name "priya" _ _ "Priya");
    try discriminate; try (left; reflexivity); reflexivity.
Defined.

End GroupStatusFacts.

(** ** The password reset form: validation, editing, result *)
Section PasswordFormFacts.
Import JS Text PasswordResetForm PasswordResetDialog.

Lemma requiredField_None (field message : string) :
  requiredField field message = None <-> isBlank field = false.
Proof.
  unfold requiredField. rewrite trim_truthy.
  destruct (isBlank field); simpl; split; congruence.
Qed.

Lemma validateForm_true (fd : FormData) :
  validateForm fd = true <->
  isBlank (username fd) = false /\ isBlank (reason fd) = false
  /\ isBlank (contactNumber fd) = false.
Proof.
  unfold validateForm, validationErrors, requiredField. rewrite !trim_truthy.
  destruct (isBlank (username fd)), (isBlank (reason fd)), (isBlank (contactNumber fd));
    simpl; split; try discriminate; try (intros (? & ? & ?); discriminate); auto.
Qed.



Lemma fieldName_inj (f f' : Field) : fieldName f = fieldName f' -> f = f'.
Proof. destruct f, f'; simpl; intros H; try reflexivity; discriminate. Qed.

(** X17. [handleInputChange] stores the value in the field it is called
    for and leaves every other field as it was; it clears the error of that
    field, whatever the new value is (nothing is validated again), and
    leaves the errors of the other fields as they were. *)
Theorem handleInputChange_one_field (f : Field) (v : string) (st : FormState) :
  getField f (formData (handleInputChange f v st)) = v
  /\ (forall f', f' <> f ->
                 getField f' (formData (handleInputChange f v st)) = getField f' (formData st))
  /\ truthyError (errors (handleInputChange f v st)) (fieldName f) = false
  /\ (forall k, k <> fieldName f ->
                errors (handleInputChange f v st) !! k = errors st !! k).
Proof.
  split; [destruct f; reflexivity|]. split; [|split].
  - intros f' Hne. destruct f, f'; try reflexivity; contradiction.
  - unfold handleInputChange. simpl.
    destruct (truthyError (errors st) (fieldName f)) eqn:E; [|exact E].
    unfold truthyError. now rewrite lookup_insert_eq.
  - intros k Hk. unfold handleInputChange. simpl.
    destruct (truthyError (errors st) (fieldName f)); [|reflexivity].
    now rewrite lookup_insert_ne by congruence.
Qed.

Lemma handleInputChange_one_field_witness :
  getField Reason
    (formData (handleInputChange Username " "
                 {| formData := Samples.formWith "low"; errors := ∅ |}))
  = "locked out".
Proof.
  destruct (handleInputChange_one_field Username " "
              {| formData := Samples.formWith "low"; errors := ∅ |}) as (_ & Hframe & _).
  apply (Hframe Reason). discriminate.
Defined.

(** X18. Closing the result dialog sends the user home exactly when the
    response was ok and its body could be read and was not null. A response
    that is not ok, with such a body, shows the body's [detail], or "Failed
    to create ticket" when the detail is absent or empty. A rejected request,
    an unreadable body and a null body show the connection failure text,
    whatever the ok flag is. The error text of a failure is never empty. *)
Theorem result_dialog_navigation :
  (forall r, handleCloseDialog (Some (resultOfResponse r)) = true <->
             exists d, r = Responded true (Data d))
  /\ (forall d e, detail d = Some e -> e <> "" ->
                  resultOfResponse (Responded false (Data d)) = Failure e)
  /\ (forall d, detail d = None \/ detail d = Some "" ->
                resultOfResponse (Responded false (Data d))
                = Failure "Failed to create ticket")
  /\ (forall r, r = NoResponse
                \/ (exists o, r = Responded o Unreadable)
                \/ (exists o, r = Responded o NullBody) ->
                resultOfResponse r = connectionFailure)
  /\ (forall r e, errorText (resultOfResponse r) = Some e -> e <> "")
  /\ handleCloseDialog None = false.
Proof.
  split; [|split; [|split; [|split; [|split]]]].
  - intros r. split.
    + destruct r as [|[] [| |d]]; simpl; try discriminate. eauto.
    + intros (d & ->). reflexivity.
  - intros d e Hd Hne. simpl. rewrite Hd. simpl.
    destruct (truthyString e) eqn:E; [reflexivity|].
    apply truthyString_false in E. contradiction.
  - intros d [Hd|Hd]; simpl; rewrite Hd; reflexivity.
  - intros r [-> | [(o & ->) | (o & ->)]];
      [reflexivity|destruct o; reflexivity|destruct o; reflexivity].
  - intros r e. destruct r as [|[] [| |d]]; simpl; try discriminate;
      try (intros [= <-]; discriminate).
    intros [= <-]. unfold orStr. destruct (detail d) as [x|]; [|discriminate].
    destruct (truthyString x) eqn:E; [|discriminate].
    intros ->. discriminate.
  - reflexivity.
Qed.

Lemma result_dialog_navigation_witness :
  resultOfResponse
    (Responded false
       (Data {| ticket_number := None; ticket_id := None; response_group := None;
                sla_response_due := None; detail := Some "Duplicate request" |}))
  = Failure "Duplicate request".
Proof.
  destruct result_dialog_navigation as (_ & Hdetail & _).
  apply Hdetail; [reflexivity|discriminate].
Defined.

End PasswordFormFacts.

(** ** The service request form *)
Section ServiceRequestFacts.
Import JS Text ServiceRequestForm.



(** X20. The ticket a service request posts has priority 'high' exactly for
    urgency 'high', 'low' exactly for urgency 'low' and 'medium' for every
    other urgency, 'critical' included; its type is 'incident' exactly for
    the form types 'password' and 'problem' and 'service_request'
    otherwise. *)
Theorem service_request_ticket_fields (formType : string) (data : RequestData) :
  (priority (ticketData formType data) = "high" <-> urgency data = "high")
  /\ (priority (ticketData formType data) = "low" <-> urgency data = "low")
  /\ (urgency data <> "high" -> urgency data <> "low" ->
      priority (ticketData formType data) = "medium")
  /\ (ticket_type (ticketData formType data) = "incident"
      <-> formType = "password" \/ formType = "problem")
  /\ (formType <> "password" -> formType <> "problem" ->
      ticket_type (ticketData formType data) = "service_request").
Proof.
  simpl. unfold getTicketType.
  destruct (String.eqb_spec (urgency data) "high") as [Eh|Eh];
    destruct (String.eqb_spec (urgency data) "low") as [El|El];
    destruct (String.eqb_spec formType "password") as [Ep|Ep];
    destruct (String.eqb_spec formType "problem") as [Eb|Eb]; simpl;
    repeat split; intros; try congruence; try discriminate; auto;
    try (rewrite Eh in El; discriminate);
    match goal with
    | H : _ \/ _ |- _ => destruct H; congruence
    | _ => idtac
    end.
Qed.

Lemma service_request_ticket_fields_witness :
  priority (ticketData "problem" (MoreSamples.requestWith "a" "b" "1" "critical")) = "medium".
Proof.
  destruct (service_request_ticket_fields "problem"
              (MoreSamples.requestWith "a" "b" "1" "critical")) as (_ & _ & Hmed & _).
  apply Hmed; discriminate.
Defined.

(** X21. Submitting through the wrappers [PasswordResetForm],
    [ProblemReportForm] and [BusinessAppForm] never posts a ticket: a valid
    form is handed unchanged to the wrapper's callback and an invalid one is
    dropped. Used without a callback, the form posts a ticket exactly when
    it validates. *)
Theorem wrappers_never_post (w : Wrapper) (fd : RequestData) :
  (forall body, wrapperSubmit w fd <> TicketPosted body)
  /\ (validateForm (wrapperFormType w) fd = true -> wrapperSubmit w fd = HandedToCallback fd)
  /\ (validateForm (wrapperFormType w) fd = false -> wrapperSubmit w fd = NotSubmitted)
  /\ (forall formType,
        handleSubmit formType false fd = TicketPosted (ticketData formType fd)
        <-> validateForm formType fd = true).
Proof.
  unfold wrapperSubmit, handleSubmit. split; [|split; [|split]].
  - intros body. destruct (validateForm (wrapperFormType w) fd); discriminate.
  - intros ->. reflexivity.
  - intros ->. reflexivity.
  - intros formType. destruct (validateForm formType fd); split; congruence.
Qed.

Lemma wrappers_never_post_witness :
  wrapperSubmit ProblemWrapper (MoreSamples.requestWith "a" "b" "1" "high")
  = HandedToCallback (MoreSamples.requestWith "a" "b" "1" "high").
Proof.
  destruct (wrappers_never_post ProblemWrapper (MoreSamples.requestWith "a" "b" "1" "high"))
    as (_ & Hvalid & _).
  apply Hvalid. reflexivity.
Defined.

End ServiceRequestFacts.

(** ** The password reset form: the errors object *)
Section PasswordErrorFacts.
Import JS Text PasswordResetForm PasswordResetDialog.

Lemma requiredField_blank (field message : string) :
  requiredField field message = if isBlank field then Some message else None.
Proof. unfold requiredField. rewrite trim_truthy. destruct (isBlank field); reflexivity. Qed.

Lemma addError_other (key k : string) (e : option string) (errs : gmap string string) :
  k <> key -> addError key e errs !! k = errs !! k.
Proof.
  intros Hk. unfold addError. destruct e; [|reflexivity].
  now rewrite lookup_insert_ne by congruence.
Qed.

(** X22. Validating the password reset form leaves the data as it is and
    replaces the errors object by one that flags exactly the blank fields
    among username, reason and contact number; no other field ever gets an
    error, and the verdict is true exactly when nothing is flagged. *)
Theorem validateStep_flags_blank_fields (st : FormState) :
  formData (fst (validateStep st)) = formData st
  /\ truthyError (errors (fst (validateStep st))) "username" = isBlank (username (formData st))
  /\ truthyError (errors (fst (validateStep st))) "reason" = isBlank (reason (formData st))
  /\ truthyError (errors (fst (validateStep st))) "contactNumber"
     = isBlank (contactNumber (formData st))
  /\ (forall k, k <> "username" -> k <> "reason" -> k <> "contactNumber" ->
                errors (fst (validateStep st)) !! k = None)
  /\ (snd (validateStep st) = true <->
      forall f, truthyError (errors (fst (validateStep st))) (fieldName f) = false).
Proof.
  assert (Hu : truthyError (errors (fst (validateStep st))) "username"
               = isBlank (username (formData st))).
  { unfold validateStep, errorsObject, validationErrors, truthyError. simpl.
    do 2 (rewrite addError_other by discriminate). rewrite requiredField_blank.
    destruct (isBlank (username (formData st))); simpl.
    - now rewrite lookup_insert_eq.
    - now rewrite lookup_empty. }
  assert (Hr : truthyError (errors (fst (validateStep st))) "reason"
               = isBlank (reason (formData st))).
  { unfold validateStep, errorsObject, validationErrors, truthyError. simpl.
    rewrite addError_other by discriminate. rewrite requiredField_blank.
    destruct (isBlank (reason (formData st))); simpl.
    - now rewrite lookup_insert_eq.
    - rewrite addError_other by discriminate. now rewrite lookup_empty. }
  assert (Hc : truthyError (errors (fst (validateStep st))) "contactNumber"
               = isBlank (contactNumber (formData st))).
  { unfold validateStep, errorsObject, validationErrors, truthyError. simpl.
    rewrite requiredField_blank.
    destruct (isBlank (contactNumber (formData st))); simpl.
    - now rewrite lookup_insert_eq.
    - do 2 (rewrite addError_other by discriminate). now rewrite lookup_empty. }
  assert (Hk : forall k, k <> "username" -> k <> "reason" -> k <> "contactNumber" ->
                         errors (fst (validateStep st)) !! k = None).
  { intros k H1 H2 H3. unfold validateStep, errorsObject. simpl.
    rewrite !addError_other by assumption. apply lookup_empty. }
  split; [reflexivity|]. repeat (split; [assumption|]).
  change (snd (validateStep st)) with (validateForm (formData st)).
  rewrite validateForm_true. split.
  - intros (H1 & H2 & H3) f. destruct f; cbn [fieldName];
      rewrite ?Hu, ?Hr, ?Hc; try assumption;
      unfold truthyError; rewrite Hk by discriminate; reflexivity.
  - intros H. split; [|split].
    + rewrite <- Hu. exact (H Username).
    + rewrite <- Hr. exact (H Reason).
    + rewrite <- Hc. exact (H ContactNumber).
Qed.

End PasswordErrorFacts.

(** ** The SLA dashboard: what a search finds *)
Section SearchFindsFacts.
Import JS Text SLADashboard.

Lemma prefix_refl (s : string) : String.prefix s s = true.
Proof.
  induction s as [|c s IH]; simpl; [reflexivity|].
  destruct (ascii_dec c c); [exact IH|contradiction].
Qed.

Lemma includes_refl (s : string) : includes s s = true.
Proof. destruct s; cbn [includes]; now rewrite prefix_refl. Qed.

Lemma shown_if_matches (term : string) (item : Entry) (data : list Entry) :
  In item data -> matchesSearch term item = true -> In item (filterItems term data).
Proof.
  intros Hin Hm. unfold filterItems. destruct (negb (truthyString term)); [exact Hin|].
  apply filter_In. auto.
Qed.

(** X23. A row of a listing is always found by its full ticket number and
    by its full title, in any letter case; a row without a ticket number is
    found by its numeric id. When a row has a ticket number its id is not
    searched: without a title, a non-empty term that does not occur in the
    lower-cased ticket number does not show the row, whatever the id. *)
Theorem search_finds_rows (item : Entry) (data : list Entry) (term : string) :
  In item data ->
  (forall tn, ticket_number item = VStr tn -> tn <> "" ->
              toLowerCase term = toLowerCase tn -> In item (filterItems term data))
  /\ (forall t, title item = Some t -> t <> "" ->
                toLowerCase term = toLowerCase t -> In item (filterItems term data))
  /\ (forall n, truthy (ticket_number item) = false -> id item = VNum n -> n <> 0 ->
                term = numberToString n -> In item (filterItems term data))
  /\ (forall tn, ticket_number item = VStr tn -> tn <> "" ->
                 title item = None -> short_description item = None ->
                 term <> "" ->
                 includes (toLowerCase tn) (toLowerCase term) = false ->
                 ~ In item (filterItems term data)).
Proof.
  intros Hin.
  assert (Htruthy : forall s, s <> "" -> truthyString s = true).
  { intros s Hs. destruct s; [contradiction|reflexivity]. }
  split; [|split; [|split]].
  - intros tn Htn Hne Hlow. apply shown_if_matches; [exact Hin|].
    unfold matchesSearch, or. rewrite Htn. cbn [truthy]. rewrite !(Htruthy tn Hne).
    cbn [truthy toString]. rewrite !(Htruthy tn Hne). cbn [toString].
    rewrite Hlow, includes_refl. reflexivity.
  - intros t Ht Hne Hlow. apply shown_if_matches; [exact Hin|].
    unfold matchesSearch. rewrite Ht. unfold orStr at 1. rewrite (Htruthy t Hne).
    rewrite Hlow, includes_refl. apply orb_true_r.
  - intros n Hfalsy Hid Hn ->. apply shown_if_matches; [exact Hin|].
    unfold matchesSearch, or. rewrite Hfalsy, Hid. cbn [truthy].
    destruct (Z.eqb_spec n 0); [contradiction|]. cbn [negb toString].
    rewrite includes_refl. reflexivity.
  - intros tn Htn Hne Ht Hs Hterm Hnot Hshown.
    unfold filterItems in Hshown. rewrite (Htruthy term Hterm) in Hshown. simpl in Hshown.
    apply filter_In in Hshown as [_ Hm].
    unfold matchesSearch, or in Hm. rewrite Htn, Ht, Hs in Hm. cbn [truthy orStr] in Hm.
    rewrite !(Htruthy tn Hne) in Hm. cbn [truthy toString] in Hm.
    rewrite ?(Htruthy tn Hne) in Hm. cbn [toString] in Hm.
    rewrite Hnot in Hm. cbn [orb] in Hm. change (toLowerCase "") with "" in Hm.
    assert (Hl : toLowerCase term <> "").
    { intros E. pose proof (toLowerCase_truthy term) as Hx.
      rewrite E, (Htruthy term Hterm) in Hx. discriminate. }
    rewrite (includes_empty_subject _ Hl) in Hm. discriminate.
Qed.

Lemma search_finds_rows_witness :
  In Samples.breachRow (filterItems "inc0007" [Samples.breachRow]).
Proof.
  destruct (search_finds_rows Samples.breachRow [Samples.breachRow] "inc0007")
    as (Hnumber & _).
  - left. reflexivity.
  - apply (Hnumber "INC0007"); [reflexivity|discriminate|reflexivity].
Defined.

End SearchFindsFacts.
